(** * pronound: a shallow embedding of the daemon and its client

    The development follows [src/pronound.c] (the server) and
    [src/pronoun.c] (the client).

    Conventions of the embedding.
    - A C string is the list of its bytes before the terminating NUL
      ([cstring]); a nullable [char *] is an [option cstring].
    - [int] is a [Z] in the signed 32-bit range, [uid_t] a [Z] in
      [0, 2^32); the conversions are written out ([to_int], [to_uid]).
    - A computation that dereferences a null pointer or reads outside
      an array has no defined result: it is [None] in the [option]
      monad ([let* x := e in k]).
    - The identity database, the file system, the environment and the
      network are explicit arguments.
    - Allocation is assumed to succeed: the returns that follow a
      failed [malloc] or [strdup] are left out.  A store outside the
      block an allocation returned is undefined; where the code stores
      into such a block the size of the block is written out. *)

From Stdlib Require Import List Ascii String ZArith Lia Bool DecimalString.
From Stdlib Require DecimalPos.
Import ListNotations.

Local Open Scope Z_scope.
Local Open Scope list_scope.

(** ** C strings *)

Definition cstring := list ascii.

Definition lit (s : string) : cstring := list_ascii_of_string s.

Definition NUL : ascii := "000"%char.
Definition TAB : ascii := "009"%char.
Definition LF : ascii := "010"%char.
Definition VT : ascii := "011"%char.
Definition FF : ascii := "012"%char.
Definition CR : ascii := "013"%char.
Definition SP : ascii := " "%char.

Definition cstring_eqb (a b : cstring) : bool :=
  if list_eq_dec ascii_dec a b then true else false.

(** What the string functions of C see of a buffer: the bytes before
    the first NUL. *)
Fixpoint cstr (buf : list ascii) : cstring :=
  match buf with
  | [] => []
  | c :: buf' => if Ascii.eqb c NUL then [] else c :: cstr buf'
  end.

(** [strchr(str, ch)]: the offset of the first [ch], if any. *)
Fixpoint strchr (str : cstring) (ch : ascii) : option nat :=
  match str with
  | [] => None
  | c :: str' =>
      if Ascii.eqb c ch then Some O
      else match strchr str' ch with
           | Some i => Some (S i)
           | None => None
           end
  end.

(** [snprintf(buf, size, ...)] keeps at most [size - 1] bytes of the
    formatted text. *)
Definition snprintf (size : nat) (text : cstring) : cstring :=
  firstn (size - 1) text.

(** ** The error monad for undefined behaviour *)

Definition bind {A B : Type} (m : option A) (k : A -> option B) : option B :=
  match m with
  | Some a => k a
  | None => None
  end.

Notation "'let*' x ':=' m 'in' k" := (bind m (fun x => k))
  (at level 10, x pattern, m at level 100, k at level 200).

(** A nullable pointer handed to a library function that reads through
    it ([strlen], [strdup], [atoi], [fopen], ...). *)
Definition deref {A : Type} (p : option A) : option A := p.

(** [printf("%d", v)] *)
Definition fmt_d (v : Z) : cstring :=
  lit (NilZero.string_of_int (Z.to_int v)).

(** ** Streams

    An open [FILE *] is the list of the bytes not read yet. *)

(** The bytes one [fgets] call consumes: at most [room] of them,
    stopping after a newline. *)
Fixpoint read_line (room : nat) (stream : list ascii) : list ascii * list ascii :=
  match room with
  | O => ([], stream)
  | S room' =>
      match stream with
      | [] => ([], [])
      | c :: stream' =>
          if Ascii.eqb c LF then ([c], stream')
          else let (l, rest) := read_line room' stream' in (c :: l, rest)
      end
  end.

(** [fgets(buf, size, file)]: [None] is the NULL of end of file,
    otherwise the string left in [buf] and the rest of the stream. *)
Definition fgets (size : nat) (stream : list ascii) : option (cstring * list ascii) :=
  match stream with
  | [] => None
  | _ :: _ =>
      let (buf, rest) := read_line (size - 1) stream in
      Some (cstr buf, rest)
  end.

(** The successive results of [fgets(line, size, file)] until it
    returns NULL, as a [while (fgets(...))] loop sees them. *)
Fixpoint fgets_iter (fuel : nat) (size : nat) (stream : list ascii) : list cstring :=
  match fuel with
  | O => []
  | S fuel' =>
      match fgets size stream with
      | None => []
      | Some (line, rest) => line :: fgets_iter fuel' size rest
      end
  end.

Definition fgets_all (size : nat) (stream : list ascii) : list cstring :=
  fgets_iter (List.length stream) size stream.

(** ** Integers of the C side *)

Definition INT_MOD : Z := 2 ^ 32.
Definition LONG_MIN : Z := - 2 ^ 63.
Definition LONG_MAX : Z := 2 ^ 63 - 1.

(** Conversion of a [long] to [int]: the low 32 bits, read as signed. *)
Definition to_int (v : Z) : Z := (v + 2 ^ 31) mod INT_MOD - 2 ^ 31.

(** Conversion of an [int] to [uid_t] (unsigned, 32 bits). *)
Definition to_uid (v : Z) : Z := v mod INT_MOD.

Definition is_digit (c : ascii) : bool :=
  (48 <=? Z.of_nat (nat_of_ascii c)) && (Z.of_nat (nat_of_ascii c) <=? 57).

Definition digit_val (c : ascii) : Z := Z.of_nat (nat_of_ascii c) - 48.

Definition isspace (c : ascii) : bool :=
  Ascii.eqb c SP || Ascii.eqb c TAB || Ascii.eqb c LF
  || Ascii.eqb c VT || Ascii.eqb c FF || Ascii.eqb c CR.

Fixpoint skip_space (s : cstring) : cstring :=
  match s with
  | c :: s' => if isspace c then skip_space s' else s
  | [] => []
  end.

(** The value of the longest prefix of decimal digits. *)
Fixpoint digits_val (acc : Z) (s : cstring) : Z :=
  match s with
  | c :: s' => if is_digit c then digits_val (acc * 10 + digit_val c) s' else acc
  | [] => acc
  end.

(** [strtol(nptr, NULL, 10)] on an LP64 platform: optional white space,
    optional sign, digits; a value outside [long] saturates. *)
Definition strtol (nptr : cstring) : Z :=
  let s := skip_space nptr in
  let v :=
    match s with
    | c :: s' =>
        if Ascii.eqb c "-" then - digits_val 0 s'
        else if Ascii.eqb c "+" then digits_val 0 s'
        else digits_val 0 s
    | [] => 0
    end in
  Z.max LONG_MIN (Z.min LONG_MAX v).

(** [atoi] as glibc and the BSD C libraries define it:
    [(int) strtol(nptr, NULL, 10)]. *)
Definition atoi (nptr : cstring) : Z := to_int (strtol nptr).

(** ** pronound.c *)

Module Pronound.

(** [struct Config] and its initialiser. *)
Record Config := mkConfig {
  daemonise : bool;
  default_pronouns : cstring;
  file_path : cstring;
  port : Z;
  daemon_user : cstring
}.

Definition config : Config :=
  {| daemonise := false;
     default_pronouns := lit "not specified";
     file_path := lit ".pronouns";
     port := 731;
     daemon_user := lit "_pronound" |}.

(** [is_number] *)
Fixpoint all_digits (str : cstring) : bool :=
  match str with
  | [] => true
  | c :: str' => if is_digit c then all_digits str' else false
  end.

Definition is_number (str : cstring) : bool :=
  match str with
  | [] => false
  | c :: str' =>
      let str1 := if Ascii.eqb c "-" then str' else str in
      match str1 with
      | [] => false
      | _ => all_digits str1
      end
  end.

(** [strip] *)
Definition is_ws (c : ascii) : bool :=
  Ascii.eqb c SP || Ascii.eqb c TAB || Ascii.eqb c LF || Ascii.eqb c CR.

Fixpoint skip_ws (str : cstring) : cstring :=
  match str with
  | c :: str' => if is_ws c then skip_ws str' else str
  | [] => []
  end.

(** The backward scan of [strip]: [e] is the offset of [end] from
    [str]; the scan stops at offset 0 ([end > str]). *)
Fixpoint scan_back (str : cstring) (e : nat) : nat :=
  match e with
  | O => O
  | S e' => if is_ws (nth e str NUL) then scan_back str e' else e
  end.

Definition strip (str0 : cstring) : cstring :=
  let str := skip_ws str0 in
  match str with
  | [] => []
  | _ :: _ =>
      let e := scan_back str (List.length str - 1) in
      let len := (e + 1)%nat in
      firstn len str
  end.

(** The host identity database ([<pwd.h>]). *)
Record passwd := mkPasswd {
  pw_name : cstring;
  pw_uid : Z;
  pw_gid : Z;
  pw_dir : cstring
}.

Definition passwd_db := list passwd.

Definition getpwuid (db : passwd_db) (uid : Z) : option passwd :=
  find (fun pw => pw_uid pw =? uid) db.

Definition getpwnam (db : passwd_db) (name : cstring) : option passwd :=
  find (fun pw => cstring_eqb (pw_name pw) name) db.

(** The file system as [fopen(path, "r")] sees it: the contents of the
    file, or [None] when it cannot be opened. *)
Definition filesystem := cstring -> option (list ascii).

(** The environment as [getenv] sees it. *)
Definition environment := cstring -> option cstring.

(** [resolve]: the uid returned, the flag written through [failed], and
    what was printed on standard output. *)
Definition resolve (db : passwd_db) (input : cstring) : Z * bool * cstring :=
  if is_number input then
    let uid := to_uid (atoi input) in
    match getpwuid db uid with
    | Some pw => (pw_uid pw, false, [])
    | None => (0, true, [])
    end
  else
    match getpwnam db input with
    | Some pw => (pw_uid pw, false, [])
    | None => (0, true, lit "User " ++ input ++ lit " not found" ++ [LF])
    end.

Definition user_not_found : cstring := lit "user not found" ++ [LF].

(** The size of the block [strip] returns: [malloc(len + 1)], the
    string and its terminator. *)
Definition strip_size (str0 : cstring) : nat := (List.length (strip str0) + 1)%nat.

(** A store to byte [i] of a block of [size] bytes stays inside it. *)
Definition in_block (size i : nat) : bool := (i <? size)%nat.

(** What [handle_request] hands back: the string it returns, or the
    string it built with a store outside the block that holds it, after
    which nothing is defined. *)
Inductive reply :=
| Reply (response : cstring)
| Overrun (built : cstring).

(** [handle_request]: the reply, and what was printed on standard
    output on the way.  On the file path the newline goes over the
    terminator of the string [strip] returned, at [cleaned[len]], and
    the new terminator to [cleaned[len + 1]]. *)
Definition handle_request (db : passwd_db) (fs : filesystem) (cfg : Config)
    (input : cstring) : reply * cstring :=
  let '(uid, failed, out) := resolve db input in
  if failed then (Reply user_not_found, out)
  else
    match getpwuid db uid with
    | None => (Reply user_not_found, out)
    | Some pw =>
        let path := snprintf 256 (pw_dir pw ++ lit "/" ++ file_path cfg) in
        match fs path with
        | None => (Reply (default_pronouns cfg), out)
        | Some file =>
            match fgets 256 file with
            | Some (pronouns, _) =>
                let cleaned := strip pronouns in
                let size := strip_size pronouns in
                let len := List.length cleaned in
                if in_block size len && in_block size (len + 1)
                then (Reply (cleaned ++ [LF]), out)
                else (Overrun (cleaned ++ [LF]), out)
            | None => (Reply (default_pronouns cfg), out)
            end
        end
    end.

(** The response of a call that has a defined result. *)
Definition response db fs cfg input : option cstring :=
  match fst (handle_request db fs cfg input) with
  | Reply r => Some r
  | Overrun _ => None
  end.

(** [split_first_space]: the return value, [*first] and [*rest].  The
    [return false] after a failed [malloc] is left out, as every
    allocation succeeds here. *)
Definition split_first_space (str : cstring) : bool * cstring * option cstring :=
  match strchr str SP with
  | None => (true, str, None)
  | Some first_len =>
      (true, firstn first_len str, Some (skipn (S first_len) str))
  end.

(** One turn of the loop of [parse_config] on the line [fgets] left in
    [line]: either the loop goes on with the configuration updated, or
    [parse_config] returns.  The [return false] of the [defaults]
    branch follows a failed [malloc] and is left out, as every
    allocation succeeds here. *)
Inductive turn :=
| Continue (cfg : Config)
| Return (result : bool) (cfg : Config).

Definition config_line (cfg : Config) (line : cstring) : option turn :=
  let cleaned_line := strip line in
  if (List.length cleaned_line =? 0)%nat || Ascii.eqb (hd NUL cleaned_line) "#" then
    Some (Continue cfg)
  else
    let '(ok, key, value) := split_first_space cleaned_line in
    if negb ok then Some (Return false cfg)
    else if cstring_eqb key (lit "daemonise") then
      let d :=
        match value with
        | Some v => cstring_eqb v (lit "true") || cstring_eqb v (lit "1")
        | None => false
        end in
      Some (Continue (mkConfig d (default_pronouns cfg) (file_path cfg)
                               (port cfg) (daemon_user cfg)))
    else if cstring_eqb key (lit "defaults") then
      let* v := deref value in
      let newline := v ++ [LF] in
      Some (Continue (mkConfig (daemonise cfg) newline (file_path cfg)
                               (port cfg) (daemon_user cfg)))
    else if cstring_eqb key (lit "file") then
      let* v := deref value in
      Some (Continue (mkConfig (daemonise cfg) (default_pronouns cfg) v
                               (port cfg) (daemon_user cfg)))
    else if cstring_eqb key (lit "port") then
      let* v := deref value in
      Some (Continue (mkConfig (daemonise cfg) (default_pronouns cfg) (file_path cfg)
                               (atoi v) (daemon_user cfg)))
    else if cstring_eqb key (lit "user") then
      let* v := deref value in
      Some (Continue (mkConfig (daemonise cfg) (default_pronouns cfg) (file_path cfg)
                               (port cfg) v))
    else Some (Continue cfg).

(** The [while (fgets(line, sizeof(line), file))] loop. *)
Fixpoint config_loop (cfg : Config) (lines : list cstring) : option (bool * Config) :=
  match lines with
  | [] => Some (true, cfg)
  | line :: lines' =>
      let* t := config_line cfg line in
      match t with
      | Continue cfg' => config_loop cfg' lines'
      | Return b cfg' => Some (b, cfg')
      end
  end.

Definition PRONOUND_CONFIG : cstring := lit "PRONOUND_CONFIG".
Definition etc_pronound_conf : cstring := lit "/etc/pronound.conf".

(** The path [parse_config] computes into its local [config_file]. *)
Definition config_file_of (getenv : environment) (filename : option cstring) : option cstring :=
  let config_file := getenv PRONOUND_CONFIG in
  let config_file :=
    match config_file with
    | None => filename
    | Some _ => config_file
    end in
  match config_file with
  | None => Some etc_pronound_conf
  | Some _ => config_file
  end.

(** [parse_config]: the return value and the global [config] afterwards,
    together with the path handed to [fopen]. *)
Definition parse_config (getenv : environment) (fs : filesystem)
    (filename : option cstring) (cfg : Config) : option (cstring * bool * Config) :=
  let config_file := config_file_of getenv filename in
  let* opened := deref filename in
  match fs opened with
  | None => Some (opened, false, cfg)
  | Some file =>
      let* r := config_loop cfg (fgets_all 256 file) in
      Some (opened, fst r, snd r)
  end.

(** The options [getopt(argc, argv, "dC:")] yields, in order. *)
Inductive option_letter :=
| opt_d
| opt_C (optarg : cstring)
| opt_unknown.

(** [main] up to the call of [getaddrinfo]: either the process has
    exited, or it is about to bind. *)
Inductive startup :=
| Exited (code : Z)
| Binding (cfg : Config) (config_file : cstring) (daemonised : bool) (port_str : cstring).

Fixpoint getopt_loop (opts : list option_letter) (should_daemonise : bool)
    (config_file : cstring) : option (bool * cstring) :=
  match opts with
  | [] => Some (should_daemonise, config_file)
  | opt_d :: opts' => getopt_loop opts' true config_file
  | opt_C optarg :: opts' => getopt_loop opts' should_daemonise optarg
  | opt_unknown :: _ => None
  end.

Definition main (uid : Z) (getenv : environment) (fs : filesystem)
    (opts : list option_letter) : option startup :=
  if negb (uid =? 0) then Some (Exited 1)
  else
    let* (_, ok, cfg) := parse_config getenv fs (Some etc_pronound_conf) config in
    if negb ok then Some (Exited 1)
    else
      let config_file :=
        match getenv PRONOUND_CONFIG with
        | Some f => f
        | None => etc_pronound_conf
        end in
      match getopt_loop opts false config_file with
      | None => Some (Exited 1)
      | Some (should_daemonise, config_file) =>
          let daemonised := daemonise cfg || should_daemonise in
          let port_str := snprintf 6 (fmt_d (port cfg)) in
          Some (Binding cfg config_file daemonised port_str)
      end.

End Pronound.

(** ** pronoun.c *)

Module Pronoun.

(** [argv[i]]: an argument for [i < argc], the NULL that ends the vector
    for [i = argc], and a read outside the vector beyond. *)
Definition argv_at (argv : list cstring) (i : nat) : option (option cstring) :=
  match Nat.compare i (List.length argv) with
  | Lt => Some (nth_error argv i)
  | Eq => Some None
  | Gt => None
  end.

Definition in_delim (delim : cstring) (c : ascii) : bool :=
  existsb (Ascii.eqb c) delim.

Fixpoint skip_delim (delim : cstring) (s : cstring) : cstring :=
  match s with
  | c :: s' => if in_delim delim c then skip_delim delim s' else s
  | [] => []
  end.

(** The token at the head of [s] and what follows its delimiter. *)
Fixpoint token (delim : cstring) (s : cstring) : cstring * cstring :=
  match s with
  | [] => ([], [])
  | c :: s' =>
      if in_delim delim c then ([], s')
      else let (t, r) := token delim s' in (c :: t, r)
  end.

(** [strtok(str, delim)] with its saved position made explicit: [save]
    is [None] before the first call.  A call with a null [str] and no
    saved position is undefined. *)
Definition strtok (str : option cstring) (delim : cstring) (save : option cstring)
    : option (option cstring * option cstring) :=
  let* s := match str with
            | Some s => Some s
            | None => save
            end in
  match skip_delim delim s with
  | [] => Some (None, Some [])
  | c :: s' => let (t, r) := token delim (c :: s') in Some (Some t, Some r)
  end.

(** What the network calls of one run return. *)
Record network := mkNetwork {
  getaddrinfo : cstring -> cstring -> bool;   (* hostname, service: returned 0 *)
  socket : bool;                              (* sockfd >= 0 *)
  connect : bool;                             (* returned >= 0 *)
  send : cstring -> bool;                     (* returned >= 0 *)
  recv : option (list ascii);                 (* the bytes received, [None] for -1 *)
  strerror : cstring;
  gai_strerror : cstring
}.

(** How a run of the client ends: [return] from [main] with what was
    written to the two streams, or undefined behaviour after what was
    written to standard error so far. *)
Inductive outcome :=
| Exit (code : Z) (stdout : cstring) (stderr : cstring)
| Undefined (stderr : cstring).

Definition usage (argv0 : cstring) : cstring :=
  lit "Usage: " ++ argv0 ++ lit " <username|uid>@<hostname>[:<port>]" ++ [LF].

Definition diagnostic (what : string) (why : cstring) : cstring :=
  lit what ++ lit ": " ++ why ++ [LF].

Definition main (argv : list cstring) (net : network) : outcome :=
  let argc := List.length argv in
  match (if (argc <? 2)%nat
         then let* a0 := argv_at argv 0 in
              let* prog := deref a0 in
              Some (usage prog)
         else Some []) with
  | None => Undefined []
  | Some err =>
      match (let* a1 := argv_at argv 1 in
             let* (username_or_uid, save) := strtok a1 (lit "@") None in
             let* (hostname, _) := strtok None (lit " ") save in
             let* a2 := argv_at argv 2 in
             Some (username_or_uid, hostname,
                   match a2 with
                   | Some p => p
                   | None => lit "731"
                   end)) with
      | None => Undefined err
      | Some (None, _, _) =>
          Exit 1 [] (err ++ lit "Username or UID is required" ++ [LF])
      | Some (Some _, None, _) =>
          Exit 1 [] (err ++ lit "Hostname is required" ++ [LF])
      | Some (Some username_or_uid, Some hostname, port_str) =>
          if negb (getaddrinfo net hostname port_str) then
            Exit 1 [] (err ++ diagnostic "getaddrinfo failed" (gai_strerror net))
          else if negb (socket net) then
            Exit 1 [] (err ++ diagnostic "socket creation failed" (strerror net))
          else if negb (connect net) then
            Exit 1 [] (err ++ diagnostic "connect failed" (strerror net))
          else
            let request := snprintf 256 (username_or_uid ++ [LF]) in
            if negb (send net request) then
              Exit 1 [] (err ++ diagnostic "send failed" (strerror net))
            else
              match recv net with
              | None => Exit 1 [] (err ++ diagnostic "recv failed" (strerror net))
              | Some data =>
                  let response := cstr (firstn 255 data) in
                  Exit 0 response err
              end
      end
  end.

End Pronoun.

(** ** Vocabulary of the statements *)

Import Pronound.

(** The string ends in a newline that no other newline precedes. *)
Definition ends_in_one_newline (s : cstring) : bool :=
  match rev s with
  | [] => false
  | c :: before =>
      Ascii.eqb c LF &&
      match before with
      | [] => true
      | c' :: _ => negb (Ascii.eqb c' LF)
      end
  end.

(** The first line of a file: its bytes before the first newline. *)
Fixpoint first_line (file : list ascii) : list ascii :=
  match file with
  | [] => []
  | c :: file' => if Ascii.eqb c LF then [] else c :: first_line file'
  end.

(** A string without its trailing white space. *)
Definition rtrim (s : cstring) : cstring := rev (skip_ws (rev s)).

(** The path of the preference file of an account, as [handle_request]
    formats it into its 256-byte buffer. *)
Definition preference_path (cfg : Config) (pw : passwd) : cstring :=
  snprintf 256 (pw_dir pw ++ lit "/" ++ file_path cfg).

(** The text starts, after optional white space and sign, with a
    decimal digit: [atoi] finds a number to convert. *)
Definition starts_numeric (v : cstring) : bool :=
  match skip_space v with
  | [] => false
  | c :: s' =>
      if Ascii.eqb c "-" || Ascii.eqb c "+"
      then match s' with
           | [] => false
           | d :: _ => is_digit d
           end
      else is_digit c
  end.

Definition set_port (cfg : Config) (p : Z) : Config :=
  mkConfig (daemonise cfg) (default_pronouns cfg) (file_path cfg) p (daemon_user cfg).

(** The keys of the configuration file that take a value which
    [parse_config] reads through. *)
Definition value_keys : list cstring :=
  [lit "defaults"; lit "file"; lit "port"; lit "user"].

(** ** Sample worlds for the concrete instances *)

Module Sample.

Definition root : passwd := mkPasswd (lit "root") 0 0 (lit "/root").
Definition alice : passwd := mkPasswd (lit "alice") 1000 1000 (lit "/home/alice").
Definition db : passwd_db := [root; alice].

(** A file system whose only file is alice's preference file. *)
Definition home (content : list ascii) : filesystem :=
  fun path => if cstring_eqb path (lit "/home/alice/.pronouns") then Some content else None.

Definition no_files : filesystem := fun _ => None.

(** A first line one byte longer than what [fgets] can put into the
    256-byte buffer of [handle_request]. *)
Definition long_line : list ascii := repeat "a"%char 256.

Definition alt_conf : cstring := lit "/tmp/alt.conf".

(** Two configuration files: the default one and the one the
    environment names. *)
Definition two_confs : filesystem :=
  fun path =>
    if cstring_eqb path etc_pronound_conf then Some (lit "defaults from etc" ++ [LF])
    else if cstring_eqb path alt_conf then Some (lit "defaults from env" ++ [LF])
    else None.

Definition env_override : environment :=
  fun name => if cstring_eqb name PRONOUND_CONFIG then Some alt_conf else None.

Definition no_env : environment := fun _ => None.

Definition etc_only (content : list ascii) : filesystem :=
  fun path => if cstring_eqb path etc_pronound_conf then Some content else None.

Definition net_ok : Pronoun.network :=
  Pronoun.mkNetwork (fun _ _ => true) true true (fun _ => true)
    (Some (lit "she/her" ++ [LF])) (lit "Connection refused") (lit "Name or service not known").

End Sample.

(** ** pronound.c, continued: privileges, signals and the accept loop *)

Module Daemon.

(** What the system calls of the server return. *)
Record kernel := mkKernel {
  fork_r : Z;                        (* pid, 0 in the child, negative on error *)
  setsid_r : Z;
  setgid_r : Z -> Z;                 (* 0 on success *)
  setuid_r : Z -> Z;                 (* 0 on success *)
  getaddrinfo_r : cstring -> Z;      (* service string: 0 on success *)
  socket_r : Z;                      (* the descriptor, negative on error *)
  setsockopt_r : Z;
  bind_r : Z;
  listen_r : Z;
  strerror_r : cstring               (* the text of errno *)
}.

(** The ids the process runs with. *)
Record creds := mkCreds {
  cr_uid : Z;
  cr_gid : Z
}.

(** A call that may end the process with [exit]. *)
Inductive control :=
| Returns
| Exits (code : Z).

Definition perror (s : string) (k : kernel) : cstring :=
  lit s ++ lit ": " ++ strerror_r k ++ [LF].

(** [drop_privileges]: the return value, the ids afterwards and what
    was written to standard error. *)
Definition drop_privileges (db : passwd_db) (k : kernel) (user : cstring)
    (c : creds) : bool * creds * cstring :=
  match getpwnam db user with
  | None => (false, c, lit "User " ++ user ++ lit " not found" ++ [LF])
  | Some pw =>
      if negb (setgid_r k (pw_gid pw) =? 0) then (false, c, perror "setgid" k)
      else
        let c1 := mkCreds (cr_uid c) (pw_gid pw) in
        if negb (setuid_r k (pw_uid pw) =? 0) then (false, c1, perror "setuid" k)
        else (true, mkCreds (pw_uid pw) (pw_gid pw), [])
  end.

(** [daemonise], seen from the process that called it: the parent and
    the failures end in [exit], the child returns. *)
Definition daemonise (k : kernel) : control :=
  let pid := fork_r k in
  if pid <? 0 then Exits 1
  else if pid >? 0 then Exits 0
  else if setsid_r k <? 0 then Exits 1
  else Returns.

Definition SIGHUP : Z := 1.
Definition SIGINT : Z := 2.
Definition SIGTERM : Z := 15.

(** The globals a signal handler works on: [config] and [daemonised]. *)
Record globals := mkGlobals {
  g_config : Config;
  g_daemonised : bool
}.

Inductive after_signal :=
| Exited_by_signal (code : Z)
| Resumed (g : globals).

(** [handle_signal] *)
Definition handle_signal (getenv : environment) (fs : filesystem) (k : kernel)
    (sig : Z) (g : globals) : option after_signal :=
  if (sig =? SIGINT) || (sig =? SIGTERM) then Some (Exited_by_signal 0)
  else if sig =? SIGHUP then
    let* (_, _, cfg) :=
      parse_config getenv fs (Some etc_pronound_conf) (g_config g) in
    if Pronound.daemonise cfg && negb (g_daemonised g) then
      match daemonise k with
      | Exits code => Some (Exited_by_signal code)
      | Returns => Some (Resumed (mkGlobals cfg true))
      end
    else Some (Resumed (mkGlobals cfg (g_daemonised g)))
  else Some (Resumed g).

(** How [main] stands when it enters the accept loop, if it does. *)
Inductive server :=
| Stopped (code : Z)
| Serving (g : globals) (c : creds).

(** [main] from the point [Pronound.main] stops at to the accept loop. *)
Definition main_bind (db : passwd_db) (k : kernel) (c : creds) (st : startup) : server :=
  match st with
  | Exited code => Stopped code
  | Binding cfg _ daemonised port_str =>
      match (if daemonised then daemonise k else Returns) with
      | Exits code => Stopped code
      | Returns =>
          if negb (getaddrinfo_r k port_str =? 0) then Stopped 1
          else if socket_r k <? 0 then Stopped 1
          else if setsockopt_r k <? 0 then Stopped 1
          else if bind_r k <? 0 then Stopped 1
          else
            let '(_, c', _) := drop_privileges db k (daemon_user cfg) c in
            if listen_r k <? 0 then Stopped 1
            else Serving (mkGlobals cfg daemonised) c'
      end
  end.

Definition main (uid gid : Z) (getenv : environment) (fs : filesystem)
    (opts : list option_letter) (db : passwd_db) (k : kernel) : option server :=
  let* st := Pronound.main uid getenv fs opts in
  Some (main_bind db k (mkCreds uid gid) st).

(** The string a [char] array holds: its bytes before the first NUL;
    reading an array that holds no NUL runs past its end. *)
Definition string_in (array : list ascii) : option cstring :=
  if existsb (Ascii.eqb NUL) array then Some (cstr array) else None.

(** One turn of the accept loop.  [client_sock] is what [accept]
    returned, [incoming] what [read] found to return ([None] for -1),
    [buffer] the 256 bytes the array [buffer] holds before the [read],
    which stores over its first bytes and adds no terminator.  The
    result is what was written to the client, if anything; a turn in
    which [handle_request] stores outside its block has none. *)
Definition accept_turn (db : passwd_db) (fs : filesystem) (cfg : Config)
    (client_sock : Z) (incoming : option (list ascii)) (buffer : list ascii)
    : option (option cstring) :=
  if client_sock <? 0 then Some None
  else
    match incoming with
    | None => Some None
    | Some data =>
        let got := firstn (256 - 1) data in
        let buffer' := got ++ skipn (List.length got) buffer in
        let* request := string_in buffer' in
        let clean := strip request in
        match fst (handle_request db fs cfg clean) with
        | Reply response => Some (Some response)
        | Overrun _ => None
        end
    end.

End Daemon.

(** ** Further vocabulary *)

(** The first word of a configuration line: what [parse_config]
    compares with the keys. *)
Definition key_of (line : cstring) : cstring :=
  snd (fst (split_first_space (strip line))).

Definition no_LF (s : cstring) : bool := negb (existsb (Ascii.eqb LF) s).

Module Sample2.

(** Two accounts that share uid 0. *)
Definition toor : passwd := mkPasswd (lit "toor") 0 0 (lit "/home/toor").
Definition shared : passwd_db := [Sample.root; toor; Sample.alice].

Definition daemon_account : passwd := mkPasswd (lit "_pronound") 731 731 (lit "/var/empty").
Definition with_daemon : passwd_db := Sample.db ++ [daemon_account].


(** A first line of 23 bytes: with its terminator it fills a block of
    24 bytes. *)
Definition line23 : list ascii := repeat "a"%char 23.

(** A kernel in which every call succeeds, seen from the child. *)
Definition kernel_ok : Daemon.kernel :=
  Daemon.mkKernel 0 1 (fun _ => 0) (fun _ => 0) (fun _ => 0) 3 0 0 0 (lit "Success").

(** The array as the request "alice" of an earlier turn left it. *)
Definition stale : list ascii := lit "alice" ++ [LF] ++ repeat NUL 250.

End Sample2.

(** ** Proof automation *)

(** Closes a goal about a run of the client that ends with code 1 and a
    diagnostic. *)
Ltac exits_with_diagnostic :=
  do 3 eexists; split; [reflexivity|]; right; split; [reflexivity|discriminate].

(** Closes the goal that a configuration line with the key [E] speaks
    of leaves the fields of the other keys alone; [L] turns the boolean
    comparison of strings into an equation. *)
Ltac keeps_other_fields L E :=
  apply L in E;
  repeat split; try reflexivity; intros Hk; exfalso; apply Hk; exact E.

(** ** Whitespace stripping *)

Section Strip.

Lemma skip_ws_head (s : cstring) (c : ascii) (r : cstring) :
  skip_ws s = c :: r -> is_ws c = false.
Proof.
  induction s as [|a s IH]; simpl; [discriminate|].
  destruct (is_ws a) eqn:Ha; auto.
  intros E; injection E as -> _; exact Ha.
Qed.

Lemma skip_ws_all (s : cstring) :
  forallb is_ws s = true -> skip_ws s = [].
Proof.
  induction s as [|a s IH]; simpl; auto.
  destruct (is_ws a); simpl; auto; discriminate.
Qed.

Lemma skip_ws_app_ws (s : cstring) (c : ascii) :
  is_ws c = true ->
  skip_ws (s ++ [c]) = match skip_ws s with [] => [] | _ :: _ => skip_ws s ++ [c] end.
Proof.
  intros Hc; induction s as [|a s IH]; simpl.
  - now rewrite Hc.
  - destruct (is_ws a); auto.
Qed.

Lemma scan_back_le (s : cstring) (e : nat) : (scan_back s e <= e)%nat.
Proof.
  induction e as [|e IH]; simpl; auto.
  destruct (is_ws _); lia.
Qed.

Lemma scan_back_app (s t : cstring) (e : nat) :
  (e < List.length s)%nat -> scan_back (s ++ t) e = scan_back s e.
Proof.
  induction e as [|e IH]; intros He; simpl; auto.
  rewrite app_nth1 by lia.
  destruct s as [|a s]; [simpl in He; lia|].
  simpl. destruct (is_ws (nth e s NUL)); auto.
  apply IH. lia.
Qed.

Lemma rtrim_app_ws (s : cstring) (c : ascii) :
  is_ws c = true -> rtrim (s ++ [c]) = rtrim s.
Proof.
  intros Hc. unfold rtrim. rewrite rev_app_distr. simpl. now rewrite Hc.
Qed.

Lemma rtrim_app_keep (s : cstring) (c : ascii) :
  is_ws c = false -> rtrim (s ++ [c]) = s ++ [c].
Proof.
  intros Hc. unfold rtrim. rewrite rev_app_distr. simpl. rewrite Hc.
  simpl. now rewrite rev_involutive.
Qed.

(** The backward scan keeps exactly the string without its trailing
    white space, when the string starts with a character that is kept. *)
Lemma scan_back_rtrim (c : ascii) (r : cstring) :
  is_ws c = false ->
  firstn (scan_back (c :: r) (List.length r) + 1) (c :: r) = rtrim (c :: r).
Proof.
  intros Hc. induction r as [|x r IH] using rev_ind.
  - simpl. unfold rtrim. simpl. now rewrite Hc.
  - rewrite length_app. simpl List.length.
    replace (List.length r + 1)%nat with (S (List.length r)) by lia.
    cbn [scan_back].
    replace (nth (S (List.length r)) (c :: r ++ [x]) NUL) with x.
    2:{ simpl. rewrite app_nth2 by lia. now rewrite Nat.sub_diag. }
    change (c :: r ++ [x]) with ((c :: r) ++ [x]).
    destruct (is_ws x) eqn:Hx.
    + rewrite scan_back_app by (simpl; lia).
      rewrite rtrim_app_ws by exact Hx.
      rewrite <- IH.
      rewrite firstn_app.
      pose proof (scan_back_le (c :: r) (List.length r)) as Hle.
      replace (scan_back (c :: r) (List.length r) + 1 - List.length (c :: r))%nat
        with O by (simpl; lia).
      simpl firstn at 2. now rewrite app_nil_r.
    + rewrite rtrim_app_keep by exact Hx.
      apply firstn_all2. rewrite length_app. simpl. lia.
Qed.

Lemma strip_rtrim (s : cstring) : strip s = rtrim (skip_ws s).
Proof.
  unfold strip. destruct (skip_ws s) as [|c r] eqn:E; [reflexivity|].
  replace (List.length (c :: r) - 1)%nat with (List.length r) by (simpl; lia).
  apply scan_back_rtrim. eapply skip_ws_head; eauto.
Qed.

Lemma strip_all_ws (s : cstring) : forallb is_ws s = true -> strip s = [].
Proof.
  intros H. rewrite strip_rtrim, skip_ws_all by exact H. reflexivity.
Qed.

Lemma strip_app_ws (s : cstring) (c : ascii) :
  is_ws c = true -> strip (s ++ [c]) = strip s.
Proof.
  intros Hc. rewrite !strip_rtrim, skip_ws_app_ws by exact Hc.
  destruct (skip_ws s) as [|a r] eqn:E; [reflexivity|].
  now apply rtrim_app_ws.
Qed.

Lemma rtrim_last (s t : cstring) (c : ascii) :
  rtrim s = t ++ [c] -> is_ws c = false.
Proof.
  unfold rtrim. intros H.
  apply (f_equal (@rev ascii)) in H.
  rewrite rev_involutive, rev_app_distr in H. simpl in H.
  eapply skip_ws_head; eauto.
Qed.

Lemma strip_last (s t : cstring) (c : ascii) :
  strip s = t ++ [c] -> is_ws c = false.
Proof.
  rewrite strip_rtrim. apply rtrim_last.
Qed.

Lemma strip_head (s r : cstring) (c : ascii) :
  strip s = c :: r -> is_ws c = false.
Proof.
  unfold strip. destruct (skip_ws s) as [|a q] eqn:E; [discriminate|].
  replace (scan_back (a :: q) (List.length (a :: q) - 1) + 1)%nat
    with (S (scan_back (a :: q) (List.length (a :: q) - 1))) by lia.
  simpl. intros H. injection H as <- _. eapply skip_ws_head; eauto.
Qed.

End Strip.


(** ** Reading the first line *)

Section FirstLine.

Lemma read_line_first_line (room : nat) (stream : list ascii) :
  fst (read_line room stream) = firstn room (first_line stream) \/
  fst (read_line room stream) = firstn room (first_line stream) ++ [LF].
Proof.
  revert stream; induction room as [|room IH]; intros [|c stream]; simpl; auto.
  destruct (Ascii.eqb c LF) eqn:Hc.
  - apply Ascii.eqb_eq in Hc; subst c. right; reflexivity.
  - specialize (IH stream). destruct (read_line room stream) as [l rest]; simpl in *.
    destruct IH as [-> | ->]; auto.
Qed.

Lemma cstr_app_LF (t : list ascii) :
  cstr (t ++ [LF]) = cstr t \/ cstr (t ++ [LF]) = cstr t ++ [LF].
Proof.
  induction t as [|c t IH]; simpl; auto.
  destruct (Ascii.eqb c NUL); auto.
  destruct IH as [-> | ->]; auto.
Qed.

Lemma cstr_no_NUL (t : list ascii) :
  existsb (Ascii.eqb NUL) t = false -> cstr t = t.
Proof.
  induction t as [|c t IH]; cbn [existsb cstr]; auto.
  rewrite (Ascii.eqb_sym NUL c).
  destruct (Ascii.eqb c NUL); cbn [orb]; [discriminate|].
  intros H; now rewrite IH.
Qed.

Lemma is_ws_LF : is_ws LF = true.
Proof. reflexivity. Qed.

(** What [strip] makes of the buffer [fgets] filled from a file that is
    not empty. *)
Lemma fgets_strip (file : list ascii) :
  file <> [] ->
  exists line rest,
    fgets 256 file = Some (line, rest) /\
    strip line = strip (cstr (firstn 255 (first_line file))).
Proof.
  intros Hne. destruct file as [|c file]; [congruence|].
  unfold fgets.
  pose proof (read_line_first_line (256 - 1) (c :: file)) as H.
  destruct (read_line (256 - 1) (c :: file)) as [buf rest]; simpl fst in H.
  exists (cstr buf), rest. split; [reflexivity|].
  change (256 - 1)%nat with 255%nat in H.
  destruct H as [-> | ->]; [reflexivity|].
  destruct (cstr_app_LF (firstn 255 (first_line (c :: file)))) as [-> | ->];
    [reflexivity|].
  apply strip_app_ws, is_ws_LF.
Qed.

Lemma forallb_firstn {A : Type} (p : A -> bool) (n : nat) (l : list A) :
  forallb p l = true -> forallb p (firstn n l) = true.
Proof.
  revert l; induction n as [|n IH]; intros [|a l]; simpl; auto.
  intros H; apply andb_true_iff in H as [-> H]; simpl; auto.
Qed.

Lemma cstr_all_ws (t : list ascii) :
  forallb is_ws t = true -> forallb is_ws (cstr t) = true.
Proof.
  induction t as [|c t IH]; simpl; auto.
  intros H; apply andb_true_iff in H as [Hc H].
  destruct (Ascii.eqb c NUL); simpl; auto.
  now rewrite Hc, IH.
Qed.

End FirstLine.

(** ** The request handler *)

Section Handler.

Variables (db : passwd_db) (fs : filesystem) (cfg : Config).

Lemma getpwuid_uid (uid : Z) (pw : passwd) :
  getpwuid db uid = Some pw -> pw_uid pw = uid.
Proof.
  unfold getpwuid; intros H. apply find_some in H as [_ H].
  now apply Z.eqb_eq.
Qed.

Lemma getpwuid_In (pw : passwd) :
  In pw db -> exists pw', getpwuid db (pw_uid pw) = Some pw'.
Proof.
  intros Hin. unfold getpwuid.
  destruct (find _ db) as [pw'|] eqn:E; [eauto|].
  pose proof (find_none _ _ E pw Hin) as H. simpl in H.
  rewrite Z.eqb_refl in H; discriminate.
Qed.

(** A successful [resolve] returns the uid of an account of the
    database, so the second lookup of [handle_request] finds one. *)
Lemma resolve_ok (input : cstring) (uid : Z) (out : cstring) :
  resolve db input = (uid, false, out) ->
  out = [] /\ exists pw, getpwuid db uid = Some pw.
Proof.
  unfold resolve. destruct (is_number input).
  - destruct (getpwuid db _) as [pw|] eqn:E; intros H; inversion H; subst.
    split; auto. apply getpwuid_In. unfold getpwuid in E.
    now apply find_some in E as [? _].
  - destruct (getpwnam db input) as [pw|] eqn:E; intros H; inversion H; subst.
    split; auto. apply getpwuid_In. unfold getpwnam in E.
    now apply find_some in E as [? _].
Qed.

(** The file path of [handle_request] always stores its terminator
    outside the block. *)
Lemma file_path_overruns (pronouns : cstring) :
  in_block (strip_size pronouns) (List.length (strip pronouns))
  && in_block (strip_size pronouns) (List.length (strip pronouns) + 1) = false.
Proof.
  unfold in_block, strip_size. apply andb_false_iff. right.
  apply Nat.ltb_ge. lia.
Qed.

(** [handle_request] once the account is resolved and its preference
    file is open. *)
Lemma handle_request_open (input : cstring) (uid : Z) (out : cstring)
    (pw : passwd) (file : list ascii) :
  resolve db input = (uid, false, out) ->
  getpwuid db uid = Some pw ->
  fs (preference_path cfg pw) = Some file ->
  handle_request db fs cfg input =
    match fgets 256 file with
    | Some (pronouns, _) => (Overrun (strip pronouns ++ [LF]), out)
    | None => (Reply (default_pronouns cfg), out)
    end.
Proof.
  intros Hr Hpw Hfs. unfold handle_request.
  rewrite Hr, Hpw. fold (preference_path cfg pw). rewrite Hfs.
  destruct (fgets 256 file) as [[p r]|]; [|reflexivity].
  now rewrite file_path_overruns.
Qed.

Lemma handle_request_missing (input : cstring) (uid : Z) (out : cstring)
    (pw : passwd) :
  resolve db input = (uid, false, out) ->
  getpwuid db uid = Some pw ->
  fs (preference_path cfg pw) = None ->
  handle_request db fs cfg input = (Reply (default_pronouns cfg), out).
Proof.
  intros Hr Hpw Hfs. unfold handle_request.
  rewrite Hr, Hpw. fold (preference_path cfg pw). now rewrite Hfs.
Qed.

Lemma stripped_line_one_newline (line : cstring) :
  ends_in_one_newline (strip line ++ [LF]) = true.
Proof.
  unfold ends_in_one_newline. rewrite rev_app_distr. simpl.
  destruct (rev (strip line)) as [|c before] eqn:E; [reflexivity|].
  assert (H : strip line = rev before ++ [c]).
  { rewrite <- (rev_involutive (strip line)), E. reflexivity. }
  apply strip_last in H.
  destruct (Ascii.eqb c LF) eqn:Hc; [|reflexivity].
  apply Ascii.eqb_eq in Hc; subst c. discriminate.
Qed.

(** Every response ends in exactly one newline as soon as the
    configured default does. *)
Lemma response_one_newline (input r : cstring) :
  ends_in_one_newline (default_pronouns cfg) = true ->
  response db fs cfg input = Some r ->
  ends_in_one_newline r = true.
Proof.
  intros Hd. unfold response, handle_request.
  destruct (resolve db input) as [[uid failed] out].
  destruct failed; [now intros [= <-]|].
  destruct (getpwuid db uid) as [pw|]; [|now intros [= <-]].
  destruct (fs _) as [file|]; [|now intros [= <-]].
  destruct (fgets 256 file) as [[p q]|]; [|now intros [= <-]].
  rewrite file_path_overruns. discriminate.
Qed.

End Handler.

(** ** Responses of the request handler *)

(** C1 (the code departs from it): with the built-in configuration, a
    request for an existing account without a preference file is
    answered with "not specified", which does not end in a newline. *)
Theorem builtin_default_without_newline :
  handle_request Sample.db Sample.no_files config (lit "alice")
    = (Reply (lit "not specified"), []) /\
  response Sample.db Sample.no_files config (lit "alice") = Some (lit "not specified") /\
  ends_in_one_newline (lit "not specified") = false.
Proof. repeat split; reflexivity. Qed.

(** A [defaults] line of the configuration file stores a default that
    ends in exactly one newline. *)
Lemma defaults_line_one_newline (cfg : Config) (line v : cstring) :
  strip line = lit "defaults " ++ v ->
  exists cfg', config_line cfg line = Some (Continue cfg') /\
               default_pronouns cfg' = v ++ [LF] /\
               ends_in_one_newline (default_pronouns cfg') = true.
Proof.
  intros H. unfold config_line. rewrite H.
  eexists; split; [reflexivity|]. split; [reflexivity|].
  cbn [default_pronouns].
  unfold ends_in_one_newline. rewrite rev_app_distr. simpl.
  destruct (rev v) as [|c before] eqn:E; [reflexivity|].
  assert (Hv : strip line = (lit "defaults " ++ rev before) ++ [c]).
  { rewrite H, <- (rev_involutive v), E. cbn [rev]. now rewrite app_assoc. }
  apply strip_last in Hv.
  destruct (Ascii.eqb c LF) eqn:Hc; [|reflexivity].
  apply Ascii.eqb_eq in Hc; subst c; discriminate.
Qed.

(** C2, as stated, fails: a preference file whose first line holds two
    spaces is not answered with the default that a missing file gets:
    the call takes the path of a file with a line, on which a lone
    newline is built. *)
Lemma blank_first_line_not_default :
  forallb is_ws (first_line (lit "  " ++ [LF])) = true /\
  handle_request Sample.db (Sample.home (lit "  " ++ [LF])) config (lit "alice")
    = (Overrun [LF], []) /\
  response Sample.db (Sample.home (lit "  " ++ [LF])) config (lit "alice")
    <> Some (default_pronouns config) /\
  response Sample.db Sample.no_files config (lit "alice") = Some (default_pronouns config).
Proof. repeat split; try reflexivity. discriminate. Qed.

(** C2 (amended): for a resolved user whose preference file opens but
    is empty (the first read yields nothing), the response is the
    configured default, exactly as it is when the file is missing. *)
Theorem empty_file_gets_default
    (db : passwd_db) (fs fs' : filesystem) (cfg : Config) (input : cstring)
    (uid : Z) (out : cstring) (pw : passwd) :
  resolve db input = (uid, false, out) ->
  getpwuid db uid = Some pw ->
  fs (preference_path cfg pw) = Some [] ->
  fs' (preference_path cfg pw) = None ->
  handle_request db fs cfg input = (Reply (default_pronouns cfg), out) /\
  handle_request db fs cfg input = handle_request db fs' cfg input.
Proof.
  intros Hr Hpw Hfs Hfs'.
  rewrite (handle_request_open db fs cfg input uid out pw [] Hr Hpw Hfs).
  rewrite (handle_request_missing db fs' cfg input uid out pw Hr Hpw Hfs').
  split; reflexivity.
Qed.

Lemma empty_file_gets_default_witness :
  handle_request Sample.db (Sample.home []) config (lit "alice")
    = (Reply (default_pronouns config), []) /\
  handle_request Sample.db (Sample.home []) config (lit "alice")
    = handle_request Sample.db Sample.no_files config (lit "alice").
Proof.
  apply (empty_file_gets_default Sample.db (Sample.home []) Sample.no_files config
           (lit "alice") 1000 [] Sample.alice); reflexivity.
Defined.

(** C3: a token whose lookup (by uid when it is numeric, by name
    otherwise) finds no account is answered with "user not found" and a
    newline. *)
Theorem unknown_token_user_not_found
    (db : passwd_db) (fs : filesystem) (cfg : Config) (input : cstring) :
  (if is_number input then getpwuid db (to_uid (atoi input))
   else getpwnam db input) = None ->
  response db fs cfg input = Some (lit "user not found" ++ [LF]).
Proof.
  intros H. unfold response, handle_request, resolve.
  destruct (is_number input); rewrite H; reflexivity.
Qed.

Lemma unknown_token_user_not_found_witness :
  response Sample.db (Sample.home (lit "she/her")) config (lit "doesnotexist12345")
    = Some (lit "user not found" ++ [LF]) /\
  response Sample.db (Sample.home (lit "she/her")) config (lit "4242")
    = Some (lit "user not found" ++ [LF]).
Proof.
  split.
  - apply (unknown_token_user_not_found Sample.db _ config (lit "doesnotexist12345")).
    reflexivity.
  - apply (unknown_token_user_not_found Sample.db _ config (lit "4242")).
    reflexivity.
Defined.

Lemma rtrim_app_all_ws (s w : cstring) :
  forallb is_ws w = true -> rtrim (s ++ w) = rtrim s.
Proof.
  induction w as [|x w IH] using rev_ind; intros H.
  - now rewrite app_nil_r.
  - rewrite forallb_app in H. apply andb_true_iff in H as [Hw Hx].
    simpl in Hx. rewrite andb_true_r in Hx.
    rewrite app_assoc, rtrim_app_ws by exact Hx. auto.
Qed.

Lemma ws_no_NUL (w : cstring) :
  forallb is_ws w = true -> existsb (Ascii.eqb NUL) w = false.
Proof.
  induction w as [|c w IH]; cbn [forallb existsb]; auto.
  intros H. apply andb_true_iff in H as [Hc H]. rewrite (IH H), orb_false_r.
  destruct (Ascii.eqb NUL c) eqn:E; auto.
  apply Ascii.eqb_eq in E; subst c. discriminate.
Qed.

(** C4 (the code departs from it): for a preference file whose first
    line has 23 bytes, [strip] returns a block of 24 bytes that the line
    and its terminator fill; [handle_request] puts the newline at byte
    23 and the new terminator at byte 24, outside the block: the call
    has no defined result, where the claim has the line and a newline
    returned. *)
Theorem file_line_overruns_block :
  fgets 256 (Sample2.line23 ++ [LF]) = Some (Sample2.line23 ++ [LF], []) /\
  strip (Sample2.line23 ++ [LF]) = Sample2.line23 /\
  strip_size (Sample2.line23 ++ [LF]) = 24%nat /\
  in_block 24 23 = true /\
  in_block 24 24 = false /\
  handle_request Sample.db (Sample.home (Sample2.line23 ++ [LF])) config (lit "alice")
    = (Overrun (Sample2.line23 ++ [LF]), []) /\
  response Sample.db (Sample.home (Sample2.line23 ++ [LF])) config (lit "alice") = None.
Proof. repeat split; vm_compute; reflexivity. Qed.

(** A first line longer than the buffer is cut before it is stripped:
    of 256 letters, 255 are kept. *)
Example long_first_line_truncated :
  first_line (Sample.long_line ++ [LF]) = Sample.long_line /\
  handle_request Sample.db (Sample.home (Sample.long_line ++ [LF])) config (lit "alice")
    = (Overrun (repeat "a"%char 255 ++ [LF]), []).
Proof. split; vm_compute; reflexivity. Qed.




(** ** The configuration loader *)

Section Lines.

Lemma read_line_cons (room : nat) (c : ascii) (stream : list ascii) :
  read_line (S room) (c :: stream) =
    if Ascii.eqb c LF then ([c], stream)
    else (c :: fst (read_line room stream), snd (read_line room stream)).
Proof.
  cbn [read_line]. destruct (Ascii.eqb c LF); [reflexivity|].
  now destruct (read_line room stream).
Qed.

Lemma read_line_shorter (room : nat) (stream : list ascii) :
  (List.length (snd (read_line (S room) stream)) < List.length stream)%nat
  \/ stream = [].
Proof.
  revert stream; induction room as [|room IH]; intros [|c stream]; auto; left.
  - simpl. destruct (Ascii.eqb c LF); simpl; lia.
  - rewrite read_line_cons. destruct (Ascii.eqb c LF); [simpl; lia|].
    destruct (IH stream) as [Hlt | ->]; cbn [snd List.length]; [lia|].
    simpl; lia.
Qed.

Lemma fgets_iter_enough (size : nat) (fuel fuel' : nat) (stream : list ascii) :
  (2 <= size)%nat ->
  (List.length stream <= fuel)%nat -> (List.length stream <= fuel')%nat ->
  fgets_iter fuel size stream = fgets_iter fuel' size stream.
Proof.
  intros Hsize. revert fuel' stream.
  induction fuel as [|fuel IH]; intros fuel' stream H1 H2.
  - destruct stream; [|simpl in H1; lia]. destruct fuel'; reflexivity.
  - destruct stream as [|c stream]; [destruct fuel'; reflexivity|].
    destruct fuel' as [|fuel']; [simpl in H2; lia|].
    cbn [fgets_iter]. unfold fgets.
    destruct size as [|[|size]]; try lia.
    replace (S (S size) - 1)%nat with (S size) by lia.
    pose proof (read_line_shorter size (c :: stream)) as Hs.
    destruct (read_line (S size) (c :: stream)) as [buf rest]; simpl snd in Hs.
    destruct Hs as [Hs|Hs]; [|discriminate].
    f_equal. apply IH; simpl in *; lia.
Qed.

(** The loop over [fgets] unfolds as the C loop does: the fuel of
    [fgets_all] is always enough. *)
Lemma fgets_all_unfold (stream : list ascii) :
  fgets_all 256 stream =
    match fgets 256 stream with
    | None => []
    | Some (line, rest) => line :: fgets_all 256 rest
    end.
Proof.
  unfold fgets_all. destruct stream as [|c stream]; [reflexivity|].
  cbn [List.length fgets_iter]. unfold fgets.
  change (256 - 1)%nat with (S 254).
  pose proof (read_line_shorter 254 (c :: stream)) as Hs.
  destruct (read_line (S 254) (c :: stream)) as [buf rest]; simpl snd in Hs.
  destruct Hs as [Hs|Hs]; [|discriminate].
  f_equal. apply fgets_iter_enough; simpl in *; lia.
Qed.

End Lines.

Lemma non_numeric_atoi_zero (v : cstring) :
  starts_numeric v = false -> atoi v = 0.
Proof.
  unfold starts_numeric, atoi, strtol.
  destruct (skip_space v) as [|c s']; [reflexivity|].
  destruct (Ascii.eqb c "-") eqn:Hm; cbn [orb].
  - destruct s' as [|d s']; [reflexivity|]. intros Hd. simpl. rewrite Hd. reflexivity.
  - destruct (Ascii.eqb c "+") eqn:Hp.
    + destruct s' as [|d s']; [reflexivity|]. intros Hd. simpl. rewrite Hd. reflexivity.
    + intros Hd. simpl. rewrite Hd. reflexivity.
Qed.

Lemma port_line_stored (cfg : Config) (line v : cstring) :
  strip line = lit "port " ++ v ->
  config_line cfg line = Some (Continue (set_port cfg (atoi v))).
Proof.
  intros H. unfold config_line. rewrite H. reflexivity.
Qed.

(** C5, as stated, fails: with the configuration file "port abc", the
    port rendered for binding is 0, not 731. *)
Lemma non_numeric_port_kept :
  main 0 Sample.no_env (Sample.etc_only (lit "port abc" ++ [LF])) [] =
    Some (Binding (set_port config 0) etc_pronound_conf false (lit "0")) /\
  port (set_port config 0) <> 731.
Proof. split; [reflexivity | discriminate]. Qed.

(** The environment has no part in what [parse_config] opens or
    returns: only its argument has. *)
Lemma parse_config_ignores_environment
    (getenv getenv' : environment) (fs : filesystem)
    (filename : option cstring) (cfg : Config) :
  parse_config getenv fs filename cfg = parse_config getenv' fs filename cfg.
Proof. reflexivity. Qed.

Lemma parse_config_opens_argument
    (getenv : environment) (fs : filesystem) (filename : option cstring)
    (cfg cfg' : Config) (opened : cstring) (ok : bool) :
  parse_config getenv fs filename cfg = Some (opened, ok, cfg') ->
  filename = Some opened.
Proof.
  unfold parse_config, deref. destruct filename as [name|]; [|discriminate].
  cbn [bind]. destruct (fs name) as [file|].
  - destruct (config_loop cfg (fgets_all 256 file)); cbn [bind]; congruence.
  - congruence.
Qed.

(** A turn of the loop never makes [parse_config] return: the only
    [return] inside the loop follows a failed allocation. *)
Lemma config_line_continues (cfg : Config) (line : cstring) (t : turn) :
  config_line cfg line = Some t -> exists cfg', t = Continue cfg'.
Proof.
  unfold config_line, split_first_space, deref.
  destruct (_ || _); [intros [= <-]; eauto|].
  destruct (strchr (strip line) SP) as [i|]; cbn [negb bind];
    repeat (destruct (cstring_eqb _ _); [intros [= <-]; eauto|]);
    try discriminate; intros [= <-]; eauto.
Qed.

(** The loop over the lines of a file goes on from where it was after
    a prefix of them. *)
Lemma config_loop_app (cfg cfg1 : Config) (pre post : list cstring) (ok : bool) :
  config_loop cfg pre = Some (ok, cfg1) ->
  config_loop cfg (pre ++ post) = config_loop cfg1 post.
Proof.
  revert cfg; induction pre as [|line pre IH]; intros cfg; cbn [config_loop app].
  - intros [= _ ->]. reflexivity.
  - destruct (config_line cfg line) as [t|] eqn:E; cbn [bind]; [|discriminate].
    destruct (config_line_continues cfg line t E) as [cfg' ->]. apply IH.
Qed.

(** C5 (amended): a [port] line with a value stores [atoi] of the value
    without validation, 0 when the value is not numeric; for a
    configuration file that ends with that line, [main] reaches the bind
    with that stored value rendered (in at most five characters) as the
    service string, with no fallback to 731. *)
Theorem port_line_kept_at_bind
    (getenv : environment) (fs : filesystem) (opts : list option_letter)
    (file : list ascii) (pre : list cstring) (line v : cstring) (cfg1 : Config)
    (should_daemonise : bool) (config_file : cstring) :
  fs etc_pronound_conf = Some file ->
  fgets_all 256 file = pre ++ [line] ->
  config_loop config pre = Some (true, cfg1) ->
  strip line = lit "port " ++ v ->
  getopt_loop opts false
    (match getenv PRONOUND_CONFIG with
     | Some f => f
     | None => etc_pronound_conf
     end) = Some (should_daemonise, config_file) ->
  main 0 getenv fs opts =
    Some (Binding (set_port cfg1 (atoi v)) config_file
            (daemonise cfg1 || should_daemonise)
            (snprintf 6 (fmt_d (atoi v)))) /\
  (starts_numeric v = false -> atoi v = 0).
Proof.
  intros Hfs Hlines Hpre Hline Hopts. split; [|apply non_numeric_atoi_zero].
  unfold main, parse_config. cbn [Z.eqb negb deref bind].
  rewrite Hfs, Hlines, (config_loop_app _ _ _ _ _ Hpre). cbn [config_loop].
  rewrite (port_line_stored cfg1 line v Hline).
  cbn [bind fst snd negb]. rewrite Hopts. reflexivity.
Qed.

Lemma port_line_kept_at_bind_witness :
  main 0 Sample.no_env
    (Sample.etc_only (lit "daemonise true" ++ [LF] ++ lit "port http" ++ [LF])) [] =
    Some (Binding (mkConfig true (lit "not specified") (lit ".pronouns") 0 (lit "_pronound"))
            etc_pronound_conf true (lit "0")).
Proof.
  apply (port_line_kept_at_bind Sample.no_env
           (Sample.etc_only (lit "daemonise true" ++ [LF] ++ lit "port http" ++ [LF])) []
           (lit "daemonise true" ++ [LF] ++ lit "port http" ++ [LF])
           [lit "daemonise true" ++ [LF]] (lit "port http" ++ [LF]) (lit "http")
           (mkConfig true (lit "not specified") (lit ".pronouns") 731 (lit "_pronound"))
           false etc_pronound_conf); reflexivity.
Defined.

(** X17: neither the environment nor the [-C] option has a part in
    the configuration [main] binds with: it is the one parsed from
    /etc/pronound.conf, and its port is the one rendered. *)
Lemma main_parses_etc
    (getenv : environment) (fs : filesystem) (opts : list option_letter)
    (cfg : Config) (config_file : cstring) (daemonised : bool) (port_str : cstring) :
  main 0 getenv fs opts = Some (Binding cfg config_file daemonised port_str) ->
  parse_config (fun _ => None) fs (Some etc_pronound_conf) config
    = Some (etc_pronound_conf, true, cfg) /\
  port_str = snprintf 6 (fmt_d (port cfg)).
Proof.
  unfold main. cbn [Z.eqb negb].
  change (parse_config getenv fs (Some etc_pronound_conf) config)
    with (parse_config (fun _ => None) fs (Some etc_pronound_conf) config).
  destruct (parse_config _ fs _ config) as [[[opened ok] cfg']|] eqn:E;
    cbn [bind]; [|discriminate].
  pose proof (parse_config_opens_argument _ _ _ _ _ _ _ E) as [= <-].
  destruct ok; cbn [negb]; [|discriminate].
  destruct (getopt_loop opts false _) as [[sd cf]|]; [|discriminate].
  intros [= <- <- <- <-]. split; reflexivity.
Qed.

(** C6 (the code departs from it): with the override variable set to
    /tmp/alt.conf, [parse_config] computes that path into [config_file]
    but opens and parses its argument, /etc/pronound.conf; the result is
    the one obtained without the variable. *)
Theorem environment_override_not_opened :
  config_file_of Sample.env_override (Some etc_pronound_conf) = Some Sample.alt_conf /\
  parse_config Sample.env_override Sample.two_confs (Some etc_pronound_conf) config =
    Some (etc_pronound_conf, true,
          mkConfig false (lit "from etc" ++ [LF]) (lit ".pronouns") 731 (lit "_pronound")) /\
  parse_config Sample.env_override Sample.two_confs (Some etc_pronound_conf) config =
    parse_config Sample.no_env Sample.two_confs (Some etc_pronound_conf) config.
Proof. repeat split; reflexivity. Qed.

Lemma bare_key_line (cfg : Config) (line : cstring) :
  In (strip line) value_keys -> config_line cfg line = None.
Proof.
  unfold value_keys, config_line.
  intros [H | [H | [H | [H | []]]]]; rewrite <- H; reflexivity.
Qed.

(** C9: a line that, once stripped, is exactly one of the keys
    [defaults], [file], [port] or [user] leaves [value] null after
    [split_first_space], and [parse_config] reads through it: the line
    has no defined result. *)
Theorem bare_value_key_undefined (cfg : Config) (line : cstring) :
  In (strip line) value_keys ->
  split_first_space (strip line) = (true, strip line, None) /\
  config_line cfg line = None.
Proof.
  intros H. split; [|now apply bare_key_line].
  unfold value_keys in H.
  destruct H as [H | [H | [H | [H | []]]]]; rewrite <- H; reflexivity.
Qed.

Lemma bare_value_key_undefined_witness :
  config_line config (lit "  port" ++ [CR; LF]) = None.
Proof.
  apply (bare_value_key_undefined config (lit "  port" ++ [CR; LF])).
  right; right; left; reflexivity.
Defined.

(** The undefined line makes the whole of [parse_config] undefined when
    the lines before it are skipped or well formed. *)
Lemma parse_config_bare_key_undefined
    (getenv : environment) (fs : filesystem) (name : cstring) (cfg : Config)
    (file : list ascii) (line : cstring) (rest : list cstring) :
  fs name = Some file ->
  fgets_all 256 file = line :: rest ->
  In (strip line) value_keys ->
  parse_config getenv fs (Some name) cfg = None.
Proof.
  intros Hfs Hl Hk. unfold parse_config, deref. cbn [bind].
  rewrite Hfs, Hl. cbn [config_loop].
  rewrite (bare_key_line cfg line Hk). reflexivity.
Qed.

Example parse_config_port_alone :
  parse_config Sample.no_env (Sample.etc_only (lit "port" ++ [LF]))
    (Some etc_pronound_conf) config = None.
Proof. reflexivity. Qed.

(** ** Numeric tokens *)

Lemma to_uid_to_int (v : Z) : to_uid (to_int v) = v mod 2 ^ 32.
Proof.
  unfold to_uid, to_int, INT_MOD.
  rewrite Zminus_mod_idemp_l. f_equal. lia.
Qed.

Lemma is_digit_val (c : ascii) : is_digit c = true -> 0 <= digit_val c <= 9.
Proof.
  unfold is_digit, digit_val. intros H.
  apply andb_true_iff in H as [H1 H2]. lia.
Qed.

Lemma digits_val_nonneg (s : cstring) (acc : Z) :
  0 <= acc -> 0 <= digits_val acc s.
Proof.
  revert acc; induction s as [|c s IH]; intros acc Hacc; simpl; auto.
  destruct (is_digit c) eqn:Hc; auto.
  apply IH. pose proof (is_digit_val c Hc). lia.
Qed.

(** C10, as stated, fails: the token -9223372036854775809 is numeric,
    its value reduced modulo 2^32 is 4294967295, but [atoi] saturates
    and the uid looked up is 0 (root is found). *)
Lemma huge_negative_token_looks_up_root :
  is_number (lit "-9223372036854775809") = true /\
  (- digits_val 0 (lit "9223372036854775809")) mod 2 ^ 32 = 4294967295 /\
  to_uid (atoi (lit "-9223372036854775809")) = 0 /\
  resolve Sample.db (lit "-9223372036854775809") = (0, false, []) /\
  getpwuid Sample.db 4294967295 = None.
Proof. repeat split; reflexivity. Qed.

(** C10 (amended): a token made of a minus sign and decimal digits
    whose value is not below -2^63, the least [long], is classified as
    numeric, and the uid looked up is its signed value reduced modulo
    2^32; the token is not rejected. *)
Theorem negative_token_uid_wraps (db : passwd_db) (digits : cstring) :
  digits <> [] ->
  all_digits digits = true ->
  digits_val 0 digits <= 2 ^ 63 ->
  is_number ("-"%char :: digits) = true /\
  to_uid (atoi ("-"%char :: digits)) = (- digits_val 0 digits) mod 2 ^ 32 /\
  resolve db ("-"%char :: digits) =
    match getpwuid db ((- digits_val 0 digits) mod 2 ^ 32) with
    | Some pw => (pw_uid pw, false, [])
    | None => (0, true, [])
    end.
Proof.
  intros Hne Hd Hv.
  assert (Hnum : is_number ("-"%char :: digits) = true).
  { destruct digits; [congruence|exact Hd]. }
  assert (Huid : to_uid (atoi ("-"%char :: digits)) = (- digits_val 0 digits) mod 2 ^ 32).
  { unfold atoi. rewrite to_uid_to_int. f_equal.
    unfold strtol. cbn [skip_space]. change (isspace "-") with false.
    cbn iota. change (Ascii.eqb "-" "-") with true. cbn iota.
    pose proof (digits_val_nonneg digits 0 ltac:(lia)).
    unfold LONG_MIN, LONG_MAX. lia. }
  repeat split; auto.
  unfold resolve. rewrite Hnum, Huid. reflexivity.
Qed.

Lemma negative_token_uid_wraps_witness :
  to_uid (atoi (lit "-1")) = 4294967295.
Proof.
  destruct (negative_token_uid_wraps Sample.db (lit "1")) as (_ & H & _).
  - discriminate.
  - reflexivity.
  - vm_compute. discriminate.
  - exact H.
Defined.

(** ** The client *)

(** C8 (the code departs from it): run without an argument, the client
    writes the usage line and goes on to [strtok] with a null string
    and no saved position; it does not return from [main], with code 1
    or any other. *)
Theorem no_argument_undefined (prog : cstring) (net : Pronoun.network) :
  Pronoun.argv_at [prog] 1 = Some None /\
  Pronoun.strtok None (lit "@") None = None /\
  Pronoun.main [prog] net = Pronoun.Undefined (Pronoun.usage prog) /\
  (forall code out err, Pronoun.main [prog] net <> Pronoun.Exit code out err).
Proof.
  repeat split.
  intros code out err H. discriminate H.
Qed.

Lemma strtok_defined (str save : option cstring) (delim s : cstring) :
  match str with
  | Some x => Some x
  | None => save
  end = Some s ->
  exists tok save',
    Pronoun.strtok str delim save = Some (tok, Some save').
Proof.
  intros H. unfold Pronoun.strtok. rewrite H. cbn [bind].
  destruct (Pronoun.skip_delim delim s) as [|c s']; [eauto|].
  destruct (Pronoun.token delim (c :: s')) as [t r]; eauto.
Qed.

(** X26: with at least one argument the client does return from
    [main]: with 0 and nothing on standard error, or with 1 and a
    diagnostic. *)
Lemma client_exit_codes (argv : list cstring) (net : Pronoun.network) :
  (2 <= List.length argv)%nat ->
  exists code out err,
    Pronoun.main argv net = Pronoun.Exit code out err /\
    ((code = 0 /\ err = []) \/ (code = 1 /\ err <> [])).
Proof.
  intros Hargc.
  destruct argv as [|a0 [|a1 rest]]; simpl in Hargc; try lia.
  unfold Pronoun.main.
  replace (List.length (a0 :: a1 :: rest) <? 2)%nat with false
    by (symmetry; apply Nat.ltb_ge; simpl; lia).
  assert (Ha2 : exists a2, Pronoun.argv_at (a0 :: a1 :: rest) 2 = Some a2).
  { unfold Pronoun.argv_at. simpl. destruct rest; simpl; eauto. }
  destruct Ha2 as [a2 Ha2]. rewrite Ha2.
  change (Pronoun.argv_at (a0 :: a1 :: rest) 1) with (Some (Some a1)).
  cbn [bind].
  destruct (strtok_defined (Some a1) None (lit "@") a1 eq_refl) as (u & save & ->).
  cbn [bind].
  destruct (strtok_defined None (Some save) (lit " ") save eq_refl) as (h & save' & ->).
  cbn [bind].
  destruct u as [u|];
    [|exits_with_diagnostic].
  destruct h as [h|];
    [|exits_with_diagnostic].
  destruct (Pronoun.getaddrinfo net h _); cbn [negb];
    [|exits_with_diagnostic].
  destruct (Pronoun.socket net); cbn [negb];
    [|exits_with_diagnostic].
  destruct (Pronoun.connect net); cbn [negb];
    [|exits_with_diagnostic].
  destruct (Pronoun.send net _); cbn [negb];
    [|exits_with_diagnostic].
  destruct (Pronoun.recv net);
    [|exits_with_diagnostic].
  do 3 eexists; split; [reflexivity|]. left; split; reflexivity.
Qed.

Example client_success :
  Pronoun.main [lit "pronoun"; lit "alice@example.org"] Sample.net_ok =
    Pronoun.Exit 0 (lit "she/her" ++ [LF]) [].
Proof. reflexivity. Qed.

Example client_missing_hostname :
  Pronoun.main [lit "pronoun"; lit "alice"] Sample.net_ok =
    Pronoun.Exit 1 [] (lit "Hostname is required" ++ [LF]).
Proof. reflexivity. Qed.

(** * Further properties of the code *)

(** ** [strip] *)

Section StripMore.

Lemma skip_ws_split (s : cstring) :
  exists pre, s = pre ++ skip_ws s /\ forallb is_ws pre = true.
Proof.
  induction s as [|c s (pre & E & H)]; [exists []; auto|].
  simpl. destruct (is_ws c) eqn:Hc.
  - exists (c :: pre). split; [simpl; congruence|]. simpl. now rewrite Hc.
  - exists []. auto.
Qed.

Lemma forallb_rev {A : Type} (p : A -> bool) (l : list A) :
  forallb p (rev l) = forallb p l.
Proof.
  induction l as [|a l IH]; [reflexivity|].
  simpl. rewrite forallb_app, IH. simpl. rewrite andb_true_r. apply andb_comm.
Qed.

Lemma rtrim_split (s : cstring) :
  exists post, s = rtrim s ++ post /\ forallb is_ws post = true.
Proof.
  destruct (skip_ws_split (rev s)) as (pre & E & H).
  exists (rev pre). split; [|now rewrite forallb_rev].
  unfold rtrim. rewrite <- rev_app_distr, <- E. now rewrite rev_involutive.
Qed.

Lemma skip_ws_clean (s : cstring) :
  match s with
  | [] => True
  | c :: _ => is_ws c = false
  end -> skip_ws s = s.
Proof.
  destruct s as [|c s]; [reflexivity|]. simpl. now intros ->.
Qed.

Lemma rtrim_clean (s : cstring) :
  (forall t c, s = t ++ [c] -> is_ws c = false) -> rtrim s = s.
Proof.
  intros H. destruct s as [|c s] using rev_ind; [reflexivity|].
  apply rtrim_app_keep. eapply H. reflexivity.
Qed.

(** X1: [strip] removes white space only, and only at the two ends:
    the argument is the result between two runs of white space. *)
Theorem strip_removes_outer_whitespace (s : cstring) :
  exists pre post,
    s = pre ++ strip s ++ post /\
    forallb is_ws pre = true /\ forallb is_ws post = true.
Proof.
  destruct (skip_ws_split s) as (pre & E1 & H1).
  destruct (rtrim_split (skip_ws s)) as (post & E2 & H2).
  exists pre, post. rewrite strip_rtrim. repeat split; auto.
  now rewrite <- E2.
Qed.

(** X2: what [strip] returns neither starts nor ends with a space, a
    tab, a newline or a carriage return. *)
Theorem strip_result_is_clean (s : cstring) (c : ascii) :
  (exists r, strip s = c :: r) \/ (exists t, strip s = t ++ [c]) ->
  is_ws c = false.
Proof.
  intros [[r H] | [t H]].
  - eapply strip_head; eauto.
  - eapply strip_last; eauto.
Qed.

Lemma strip_result_is_clean_witness :
  is_ws "r" = false.
Proof.
  apply (strip_result_is_clean ([TAB] ++ lit " she/her " ++ [CR; LF]) "r").
  right. exists (lit "she/he"). reflexivity.
Defined.

(** X3: [strip] is idempotent. *)
Theorem strip_idempotent (s : cstring) : strip (strip s) = strip s.
Proof.
  rewrite (strip_rtrim (strip s)).
  rewrite skip_ws_clean.
  - apply rtrim_clean. intros t c H. eapply strip_last; eauto.
  - destruct (strip s) as [|c r] eqn:E; [exact I|]. eapply strip_head; eauto.
Qed.

End StripMore.

(** ** Decimal tokens *)

Section Decimal.

Import DecimalPos.Unsigned.

Lemma digits_val_uint (d : Decimal.uint) (acc : Z) :
  digits_val acc (lit (NilEmpty.string_of_uint d)) =
    Z.of_N (of_lu (Decimal.rev d)) + acc * 10 ^ Z.of_N (usize d).
Proof.
  revert acc.
  induction d; intros acc;
    [ simpl; lia | .. ];
    cbn [NilEmpty.string_of_uint lit list_ascii_of_string digits_val];
    (match goal with |- context [is_digit ?c] => change (is_digit c) with true end);
    cbn iota;
    (match goal with
     | |- context [Decimal.rev (?k d)] =>
         change (Decimal.rev (k d)) with (Decimal.revapp d (k Decimal.Nil))
     end);
    rewrite of_lu_revapp, IHd; cbn [of_lu usize];
    rewrite N2Z.inj_add, N2Z.inj_mul, N2Z.inj_pow, N2Z.inj_succ, Z.pow_succ_r
      by apply N2Z.is_nonneg;
    unfold digit_val;
    change (Z.of_N 10) with 10;
    set (P := 10 ^ Z.of_N (usize d));
    set (r := Z.of_N (of_lu (Decimal.rev d)));
    clearbody P r;
    (match goal with
     | |- context [Z.of_nat (nat_of_ascii ?c)] =>
         let v := eval vm_compute in (Z.of_nat (nat_of_ascii c)) in
         change (Z.of_nat (nat_of_ascii c)) with v
     end);
    cbn [Z.of_N N.add N.mul Pos.add Pos.mul]; lia.
Qed.

Lemma all_digits_uint (d : Decimal.uint) :
  all_digits (lit (NilEmpty.string_of_uint d)) = true.
Proof. induction d; simpl; auto. Qed.

Lemma fmt_d_pos (p : positive) :
  fmt_d (Z.pos p) = lit (NilEmpty.string_of_uint (Pos.to_uint p)).
Proof.
  unfold fmt_d. cbn [Z.to_int NilZero.string_of_int]. unfold NilZero.string_of_uint.
  pose proof (to_uint_nonnil p). destruct (Pos.to_uint p); congruence.
Qed.

Lemma digits_val_fmt_d (v : Z) : 0 <= v -> digits_val 0 (fmt_d v) = v.
Proof.
  intros Hv. destruct v as [|p|p]; [reflexivity | | lia].
  rewrite fmt_d_pos, digits_val_uint, <- of_uint_alt, of_to. simpl. lia.
Qed.

Lemma all_digits_fmt_d (v : Z) : 0 <= v -> all_digits (fmt_d v) = true.
Proof.
  intros Hv. destruct v as [|p|p]; [reflexivity | | lia].
  rewrite fmt_d_pos. apply all_digits_uint.
Qed.

Lemma fmt_d_nonempty (v : Z) : fmt_d v <> [].
Proof.
  destruct v as [|p|p]; [discriminate | | discriminate].
  rewrite fmt_d_pos. pose proof (to_uint_nonnil p).
  destruct (Pos.to_uint p); try congruence; discriminate.
Qed.

End Decimal.

Section Tokens.

Lemma is_digit_plain (c : ascii) :
  is_digit c = true ->
  isspace c = false /\ Ascii.eqb c "-" = false /\ Ascii.eqb c "+" = false.
Proof.
  destruct c as [[] [] [] [] [] [] [] []]; intros H; try discriminate H;
    repeat split; reflexivity.
Qed.

(** The uid an unsigned decimal token denotes for [resolve]. *)
Lemma unsigned_token_uid (digits : cstring) :
  digits <> [] ->
  all_digits digits = true ->
  digits_val 0 digits <= LONG_MAX ->
  is_number digits = true /\
  to_uid (atoi digits) = digits_val 0 digits mod 2 ^ 32.
Proof.
  intros Hne Hd Hv. destruct digits as [|c s]; [congruence|].
  assert (Hc : is_digit c = true).
  { simpl in Hd. destruct (is_digit c); [reflexivity|discriminate]. }
  destruct (is_digit_plain c Hc) as (Hsp & Hm & Hp).
  split.
  - unfold is_number. rewrite Hm. exact Hd.
  - unfold atoi. rewrite to_uid_to_int. f_equal.
    unfold strtol. cbn [skip_space]. rewrite Hsp, Hm, Hp.
    pose proof (digits_val_nonneg (c :: s) 0 ltac:(lia)).
    unfold LONG_MIN, LONG_MAX in *. lia.
Qed.

Variables (db : passwd_db) (fs : filesystem) (cfg : Config).

(** X4: an unsigned decimal token whose value fits a [long] is
    numeric, and the uid looked up is that value reduced modulo 2^32:
    [resolve] succeeds exactly when an account has that uid. *)
Theorem unsigned_token_lookup (digits : cstring) :
  digits <> [] ->
  all_digits digits = true ->
  digits_val 0 digits <= LONG_MAX ->
  resolve db digits =
    match getpwuid db (digits_val 0 digits mod 2 ^ 32) with
    | Some pw => (pw_uid pw, false, [])
    | None => (0, true, [])
    end.
Proof.
  intros Hne Hd Hv.
  destruct (unsigned_token_uid digits Hne Hd Hv) as [Hnum Huid].
  unfold resolve. now rewrite Hnum, Huid.
Qed.

(** X5: two such tokens whose values agree modulo 2^32 are served
    alike: the uid of a request wraps around at 2^32. *)
Theorem tokens_alias_modulo (d1 d2 : cstring) :
  d1 <> [] -> all_digits d1 = true -> digits_val 0 d1 <= LONG_MAX ->
  d2 <> [] -> all_digits d2 = true -> digits_val 0 d2 <= LONG_MAX ->
  digits_val 0 d1 mod 2 ^ 32 = digits_val 0 d2 mod 2 ^ 32 ->
  handle_request db fs cfg d1 = handle_request db fs cfg d2.
Proof.
  intros N1 D1 V1 N2 D2 V2 E.
  destruct (unsigned_token_uid d1 N1 D1 V1) as [Hn1 Hu1].
  destruct (unsigned_token_uid d2 N2 D2 V2) as [Hn2 Hu2].
  unfold handle_request, resolve. rewrite Hn1, Hn2, Hu1, Hu2, E. reflexivity.
Qed.

(** X6: the decimal rendering of the uid of an account, anywhere in
    the range of [uid_t] (also above [INT_MAX]), resolves to that uid. *)
Theorem uid_rendering_resolves (pw : passwd) :
  In pw db ->
  0 <= pw_uid pw < 2 ^ 32 ->
  resolve db (fmt_d (pw_uid pw)) = (pw_uid pw, false, []).
Proof.
  intros Hin Hr.
  assert (Hv : digits_val 0 (fmt_d (pw_uid pw)) = pw_uid pw)
    by (apply digits_val_fmt_d; lia).
  destruct (unsigned_token_uid (fmt_d (pw_uid pw))) as [Hnum Huid].
  - apply fmt_d_nonempty.
  - apply all_digits_fmt_d; lia.
  - rewrite Hv. unfold LONG_MAX. lia.
  - unfold resolve. rewrite Hnum, Huid, Hv, Z.mod_small by lia.
    destruct (getpwuid_In db pw Hin) as [pw' Hpw'].
    rewrite Hpw'. now rewrite (getpwuid_uid db _ _ Hpw').
Qed.

(** X7: a successful [resolve] prints nothing and returns the uid of
    an account of the database, which [getpwuid] finds again: the second
    lookup of [handle_request] cannot fail. *)
Theorem resolve_success_is_account (input : cstring) (uid : Z) (out : cstring) :
  resolve db input = (uid, false, out) ->
  out = [] /\
  exists pw, getpwuid db uid = Some pw /\ pw_uid pw = uid /\ In pw db.
Proof.
  intros H. destruct (resolve_ok db input uid out H) as [-> [pw Hpw]].
  split; [reflexivity|]. exists pw. split; [exact Hpw|].
  split; [exact (getpwuid_uid db _ _ Hpw)|].
  unfold getpwuid in Hpw. now apply find_some in Hpw as [? _].
Qed.

Lemma getpwuid_unique (pw : passwd) :
  NoDup (map pw_uid db) -> In pw db -> getpwuid db (pw_uid pw) = Some pw.
Proof.
  unfold getpwuid. induction db as [|a l IH]; intros Hnd Hin; [contradiction|].
  simpl in *. inversion Hnd as [|x xs Hn Hnd']; subst.
  destruct Hin as [-> | Hin].
  - now rewrite Z.eqb_refl.
  - destruct (pw_uid a =? pw_uid pw) eqn:E; [|auto].
    apply Z.eqb_eq in E. exfalso. apply Hn. rewrite E. now apply in_map.
Qed.

(** X8: when no two accounts share a uid, a request by name is served
    as if the database held the account of that name only: its home
    directory is the one searched. *)
Theorem name_served_from_own_home (name : cstring) (pw : passwd) :
  NoDup (map pw_uid db) ->
  is_number name = false ->
  getpwnam db name = Some pw ->
  handle_request db fs cfg name = handle_request [pw] fs cfg name.
Proof.
  intros Hnd Hname Hpw.
  assert (Hin : In pw db /\ cstring_eqb (pw_name pw) name = true).
  { unfold getpwnam in Hpw. now apply find_some in Hpw. }
  destruct Hin as [Hin Hn].
  pose proof (getpwuid_unique pw Hnd Hin) as Hu.
  unfold handle_request, resolve. rewrite Hname, Hpw. cbn beta iota.
  rewrite Hu. unfold getpwnam, getpwuid. cbn [find]. rewrite Hn.
  cbn beta iota. now rewrite Z.eqb_refl.
Qed.

End Tokens.

Lemma unsigned_token_lookup_witness :
  resolve Sample.db (lit "0001000") = (1000, false, []).
Proof.
  rewrite (unsigned_token_lookup Sample.db (lit "0001000")).
  - reflexivity.
  - discriminate.
  - reflexivity.
  - vm_compute. discriminate.
Defined.

Lemma tokens_alias_modulo_witness :
  handle_request Sample.db (Sample.home (lit "she/her" ++ [LF])) config (lit "4294968296")
  = handle_request Sample.db (Sample.home (lit "she/her" ++ [LF])) config (lit "1000").
Proof.
  apply (tokens_alias_modulo Sample.db _ config (lit "4294968296") (lit "1000"));
    try reflexivity; try discriminate; vm_compute; discriminate.
Defined.

Lemma uid_rendering_resolves_witness :
  resolve [mkPasswd (lit "nobody") 4294967294 65534 (lit "/nonexistent")]
    (lit "4294967294") = (4294967294, false, []).
Proof.
  apply (uid_rendering_resolves
           [mkPasswd (lit "nobody") 4294967294 65534 (lit "/nonexistent")]
           (mkPasswd (lit "nobody") 4294967294 65534 (lit "/nonexistent"))).
  - left; reflexivity.
  - cbn [pw_uid]. lia.
Defined.

Lemma resolve_success_is_account_witness :
  exists pw, getpwuid Sample.db 1000 = Some pw /\ pw_uid pw = 1000 /\ In pw Sample.db.
Proof.
  apply (resolve_success_is_account Sample.db (lit "alice") 1000 []).
  reflexivity.
Defined.

Lemma name_served_from_own_home_witness :
  handle_request Sample.db Sample.no_files config (lit "alice")
  = handle_request [Sample.alice] Sample.no_files config (lit "alice").
Proof.
  apply (name_served_from_own_home Sample.db Sample.no_files config (lit "alice")
           Sample.alice).
  - repeat constructor; simpl; intuition discriminate.
  - reflexivity.
  - reflexivity.
Defined.

(** With a shared uid the first account of that uid decides: a request
    for toor is served from the home directory of root. *)
Example shared_uid_served_from_first :
  handle_request Sample2.shared
    (fun path => if cstring_eqb path (lit "/root/.pronouns") then Some [] else None)
    (mkConfig false (lit "none given" ++ [LF]) (lit ".pronouns") 731 (lit "_pronound"))
    (lit "toor")
  = handle_request [Sample.root]
      (fun path => if cstring_eqb path (lit "/root/.pronouns") then Some [] else None)
      (mkConfig false (lit "none given" ++ [LF]) (lit ".pronouns") 731 (lit "_pronound"))
      (lit "root").
Proof. reflexivity. Qed.

(** ** The response read from a file *)

Section FileResponse.

Lemma strip_infix (s : cstring) : exists pre post, s = pre ++ strip s ++ post.
Proof.
  destruct (skip_ws_split s) as (pre & E1 & _).
  destruct (rtrim_split (skip_ws s)) as (post & E2 & _).
  exists pre, post. rewrite strip_rtrim, <- E2. exact E1.
Qed.

Lemma existsb_strip (p : ascii -> bool) (s : cstring) :
  existsb p s = false -> existsb p (strip s) = false.
Proof.
  destruct (strip_infix s) as (pre & post & E). intros H.
  rewrite E, !existsb_app in H.
  apply orb_false_iff in H as [_ H]. now apply orb_false_iff in H as [H _].
Qed.

Lemma length_strip (s : cstring) : (List.length (strip s) <= List.length s)%nat.
Proof.
  destruct (strip_infix s) as (pre & post & E).
  rewrite E at 2. rewrite !length_app. lia.
Qed.

Lemma cstr_prefix (buf : list ascii) : exists rest, buf = cstr buf ++ rest.
Proof.
  induction buf as [|c buf [rest IH]]; [exists []; reflexivity|].
  simpl. destruct (Ascii.eqb c NUL).
  - exists (c :: buf). reflexivity.
  - exists rest. simpl. congruence.
Qed.

Lemma cstr_holds_no_NUL (buf : list ascii) :
  existsb (Ascii.eqb NUL) (cstr buf) = false.
Proof.
  induction buf as [|c buf IH]; [reflexivity|].
  cbn [cstr]. destruct (Ascii.eqb c NUL) eqn:E; [reflexivity|].
  cbn [existsb]. now rewrite (Ascii.eqb_sym NUL c), E, IH.
Qed.

Lemma first_line_no_LF (file : list ascii) :
  existsb (Ascii.eqb LF) (first_line file) = false.
Proof.
  induction file as [|c file IH]; [reflexivity|].
  cbn [first_line]. destruct (Ascii.eqb c LF) eqn:E; [reflexivity|].
  cbn [existsb]. now rewrite (Ascii.eqb_sym LF c), E, IH.
Qed.

Lemma existsb_firstn_false {A : Type} (p : A -> bool) (n : nat) (l : list A) :
  existsb p l = false -> existsb p (firstn n l) = false.
Proof.
  intros H. rewrite <- (firstn_skipn n l), existsb_app in H.
  now apply orb_false_iff in H as [H _].
Qed.

Variables (db : passwd_db) (cfg : Config).

(** X9: for a resolved user whose preference file is not empty,
    [handle_request] stores its terminator one byte past the block
    [strip] returned, so that the call has no defined response; the
    string it builds there is one line of at most 256 bytes: up to 255
    bytes that hold neither a newline nor a NUL, and the newline. *)
Theorem file_path_always_overruns
    (fs : filesystem) (input : cstring) (uid : Z) (out : cstring)
    (pw : passwd) (file : list ascii) :
  resolve db input = (uid, false, out) ->
  getpwuid db uid = Some pw ->
  fs (preference_path cfg pw) = Some file ->
  file <> [] ->
  response db fs cfg input = None /\
  exists r,
    handle_request db fs cfg input = (Overrun (r ++ [LF]), out) /\
    in_block (List.length r + 1) (List.length r + 1) = false /\
    no_LF r = true /\
    existsb (Ascii.eqb NUL) r = false /\
    (List.length r <= 255)%nat.
Proof.
  intros Hr Hpw Hfs Hne. unfold response.
  rewrite (handle_request_open db fs cfg input uid out pw file Hr Hpw Hfs).
  destruct (fgets_strip file Hne) as (line & rest & -> & Hs).
  split; [reflexivity|].
  exists (strip line). split; [reflexivity|].
  split; [unfold in_block; apply Nat.ltb_irrefl|].
  rewrite Hs.
  set (x := firstn 255 (first_line file)).
  destruct (cstr_prefix x) as [tl Hx].
  assert (HLF : existsb (Ascii.eqb LF) (cstr x) = false).
  { pose proof (existsb_firstn_false (Ascii.eqb LF) 255 _ (first_line_no_LF file)) as H.
    fold x in H. rewrite Hx, existsb_app in H.
    now apply orb_false_iff in H as [H _]. }
  repeat split.
  - unfold no_LF. now rewrite existsb_strip.
  - apply existsb_strip, cstr_holds_no_NUL.
  - etransitivity; [apply length_strip|].
    assert (List.length x <= 255)%nat by (unfold x; apply firstn_le_length).
    rewrite Hx, length_app in H. lia.
Qed.

(** X10: only the part of the first line that [fgets] reads counts:
    two files that are not empty and agree on the first 255 bytes of
    their first lines are handled alike. *)
Theorem response_depends_on_first_line
    (fs1 fs2 : filesystem) (input : cstring) (uid : Z) (out : cstring)
    (pw : passwd) (file1 file2 : list ascii) :
  resolve db input = (uid, false, out) ->
  getpwuid db uid = Some pw ->
  fs1 (preference_path cfg pw) = Some file1 ->
  fs2 (preference_path cfg pw) = Some file2 ->
  file1 <> [] -> file2 <> [] ->
  firstn 255 (first_line file1) = firstn 255 (first_line file2) ->
  handle_request db fs1 cfg input = handle_request db fs2 cfg input.
Proof.
  intros Hr Hpw H1 H2 N1 N2 E.
  rewrite (handle_request_open db fs1 cfg input uid out pw file1 Hr Hpw H1).
  rewrite (handle_request_open db fs2 cfg input uid out pw file2 Hr Hpw H2).
  destruct (fgets_strip file1 N1) as (l1 & r1 & -> & S1).
  destruct (fgets_strip file2 N2) as (l2 & r2 & -> & S2).
  now rewrite S1, S2, E.
Qed.

End FileResponse.

Lemma file_path_always_overruns_witness :
  response Sample.db (Sample.home (lit " he/him" ++ [LF] ++ lit "x")) config (lit "alice")
    = None /\
  exists r,
    handle_request Sample.db (Sample.home (lit " he/him" ++ [LF] ++ lit "x")) config
      (lit "alice") = (Overrun (r ++ [LF]), []) /\
    in_block (List.length r + 1) (List.length r + 1) = false /\
    no_LF r = true /\
    existsb (Ascii.eqb NUL) r = false /\
    (List.length r <= 255)%nat.
Proof.
  apply (file_path_always_overruns Sample.db config
           (Sample.home (lit " he/him" ++ [LF] ++ lit "x")) (lit "alice") 1000 []
           Sample.alice (lit " he/him" ++ [LF] ++ lit "x"));
    try reflexivity.
  discriminate.
Defined.

Lemma response_depends_on_first_line_witness :
  handle_request Sample.db (Sample.home (lit "he/him" ++ [LF] ++ lit "more")) config
    (lit "alice")
  = handle_request Sample.db (Sample.home (lit "he/him")) config (lit "alice").
Proof.
  apply (response_depends_on_first_line Sample.db config _ _ (lit "alice") 1000 []
           Sample.alice (lit "he/him" ++ [LF] ++ lit "more") (lit "he/him"));
    try reflexivity; discriminate.
Defined.

(** ** Splitting and parsing configuration lines *)

Section ConfigMore.

Lemma strchr_Some (str : cstring) (ch : ascii) (i : nat) :
  strchr str ch = Some i ->
  str = firstn i str ++ ch :: skipn (S i) str /\
  existsb (Ascii.eqb ch) (firstn i str) = false.
Proof.
  revert i; induction str as [|c str IH]; intros i; cbn [strchr]; [discriminate|].
  destruct (Ascii.eqb c ch) eqn:E.
  - intros [= <-]. apply Ascii.eqb_eq in E; subst c. split; reflexivity.
  - destruct (strchr str ch) as [j|]; [|discriminate].
    intros [= <-]. destruct (IH j eq_refl) as [H1 H2].
    split.
    + cbn [firstn skipn app]. f_equal. exact H1.
    + cbn [firstn existsb]. now rewrite (Ascii.eqb_sym ch c), E, H2.
Qed.

Lemma strchr_None (str : cstring) (ch : ascii) :
  strchr str ch = None -> existsb (Ascii.eqb ch) str = false.
Proof.
  induction str as [|c str IH]; cbn [strchr existsb]; [reflexivity|].
  destruct (Ascii.eqb c ch) eqn:E; [discriminate|].
  destruct (strchr str ch); [discriminate|].
  intros _. now rewrite (Ascii.eqb_sym ch c), E, IH.
Qed.

(** X11: [split_first_space] cuts at the first space: the key holds no
    space, key, space and value make up the line again, and the value
    is null exactly when the line holds no space. *)
Theorem split_first_space_rejoins (str : cstring) :
  exists first rest,
    split_first_space str = (true, first, rest) /\
    existsb (Ascii.eqb SP) first = false /\
    match rest with
    | Some r => str = first ++ SP :: r
    | None => first = str
    end.
Proof.
  unfold split_first_space. destruct (strchr str SP) as [i|] eqn:E.
  - destruct (strchr_Some _ _ _ E) as [H1 H2].
    exists (firstn i str), (Some (skipn (S i) str)). auto.
  - exists str, None. split; [reflexivity|]. split; [|reflexivity].
    now apply strchr_None.
Qed.

Lemma cstring_eqb_eq (a b : cstring) : cstring_eqb a b = true -> a = b.
Proof.
  unfold cstring_eqb. destruct (list_eq_dec ascii_dec a b); [auto|discriminate].
Qed.

Lemma config_loop_true (cfg cfg' : Config) (lines : list cstring) (ok : bool) :
  config_loop cfg lines = Some (ok, cfg') -> ok = true.
Proof.
  revert cfg; induction lines as [|line lines IH]; intros cfg; cbn [config_loop].
  - now intros [= <- _].
  - destruct (config_line cfg line) as [t|] eqn:E; cbn [bind]; [|discriminate].
    destruct (config_line_continues cfg line t E) as [c ->]. apply IH.
Qed.

(** X12: allocation aside, [parse_config] returns false exactly when
    its file cannot be opened, and the configuration is then left as it
    was.  (The other [return false] of the source follow a failed
    [malloc], which the embedding leaves out.) *)
Theorem parse_config_false_iff_unopened
    (getenv : environment) (fs : filesystem) (name opened : cstring)
    (cfg cfg' : Config) (ok : bool) :
  parse_config getenv fs (Some name) cfg = Some (opened, ok, cfg') ->
  (ok = false <-> fs name = None) /\ (ok = false -> cfg' = cfg).
Proof.
  unfold parse_config, deref. cbn [bind].
  destruct (fs name) as [file|].
  - destruct (config_loop cfg (fgets_all 256 file)) as [[b c]|] eqn:E;
      cbn [bind fst snd]; [|discriminate].
    intros [= _ <- _]. rewrite (config_loop_true _ _ _ _ E).
    split; [split|]; discriminate.
  - intros [= _ <- <-]. split; [split|]; reflexivity.
Qed.

Lemma config_line_keeps (cfg cfg' : Config) (line : cstring) :
  config_line cfg line = Some (Continue cfg') ->
  (key_of line <> lit "daemonise" -> daemonise cfg' = daemonise cfg) /\
  (key_of line <> lit "defaults" -> default_pronouns cfg' = default_pronouns cfg) /\
  (key_of line <> lit "file" -> file_path cfg' = file_path cfg) /\
  (key_of line <> lit "port" -> port cfg' = port cfg) /\
  (key_of line <> lit "user" -> daemon_user cfg' = daemon_user cfg).
Proof.
  unfold config_line, key_of.
  destruct (_ || _); [intros [= <-]; repeat split; reflexivity|].
  destruct (split_first_space (strip line)) as [[ok key] value]. cbn [fst snd].
  destruct (negb ok); [discriminate|].
  destruct (cstring_eqb key (lit "daemonise")) eqn:E1;
    [intros [= <-]; keeps_other_fields cstring_eqb_eq E1|].
  destruct (cstring_eqb key (lit "defaults")) eqn:E2;
    [destruct value; cbn [deref bind]; [|discriminate];
     intros [= <-]; keeps_other_fields cstring_eqb_eq E2|].
  destruct (cstring_eqb key (lit "file")) eqn:E3;
    [destruct value; cbn [deref bind]; [|discriminate];
     intros [= <-]; keeps_other_fields cstring_eqb_eq E3|].
  destruct (cstring_eqb key (lit "port")) eqn:E4;
    [destruct value; cbn [deref bind]; [|discriminate];
     intros [= <-]; keeps_other_fields cstring_eqb_eq E4|].
  destruct (cstring_eqb key (lit "user")) eqn:E5;
    [destruct value; cbn [deref bind]; [|discriminate];
     intros [= <-]; keeps_other_fields cstring_eqb_eq E5|].
  intros [= <-]. repeat split; reflexivity.
Qed.

(** X13: a field of the configuration changes only through a line
    with its key: parsing lines none of which starts with a given key
    leaves the field of that key as it was. *)
Theorem absent_key_keeps_field
    (cfg cfg' : Config) (lines : list cstring) (ok : bool) :
  config_loop cfg lines = Some (ok, cfg') ->
  (Forall (fun l => key_of l <> lit "daemonise") lines ->
   daemonise cfg' = daemonise cfg) /\
  (Forall (fun l => key_of l <> lit "defaults") lines ->
   default_pronouns cfg' = default_pronouns cfg) /\
  (Forall (fun l => key_of l <> lit "file") lines ->
   file_path cfg' = file_path cfg) /\
  (Forall (fun l => key_of l <> lit "port") lines ->
   port cfg' = port cfg) /\
  (Forall (fun l => key_of l <> lit "user") lines ->
   daemon_user cfg' = daemon_user cfg).
Proof.
  revert cfg; induction lines as [|line lines IH]; intros cfg; cbn [config_loop].
  - intros [= _ <-]. repeat split; reflexivity.
  - destruct (config_line cfg line) as [t|] eqn:E; cbn [bind]; [|discriminate].
    destruct (config_line_continues cfg line t E) as [c ->].
    intros H. destruct (IH c H) as (I1 & I2 & I3 & I4 & I5).
    destruct (config_line_keeps cfg c line E) as (K1 & K2 & K3 & K4 & K5).
    repeat split; intros HF; inversion HF; subst.
    + rewrite I1, K1; auto.
    + rewrite I2, K2; auto.
    + rewrite I3, K3; auto.
    + rewrite I4, K4; auto.
    + rewrite I5, K5; auto.
Qed.

End ConfigMore.

Lemma parse_config_false_iff_unopened_witness :
  (false = false <-> Sample.no_files etc_pronound_conf = None) /\
  (false = false -> config = config).
Proof.
  apply (parse_config_false_iff_unopened Sample.no_env Sample.no_files
           etc_pronound_conf etc_pronound_conf config config false).
  reflexivity.
Defined.

Lemma absent_key_keeps_field_witness :
  port (mkConfig true (lit "they/them" ++ [LF]) (lit ".pronouns") 731 (lit "_pronound"))
  = port config.
Proof.
  destruct (absent_key_keeps_field config
              (mkConfig true (lit "they/them" ++ [LF]) (lit ".pronouns") 731 (lit "_pronound"))
              [lit "# a comment" ++ [LF]; lit "daemonise 1" ++ [LF];
               lit "defaults they/them" ++ [LF]] true)
    as (_ & _ & _ & H & _).
  - reflexivity.
  - apply H. repeat constructor; discriminate.
Defined.

(** ** Lines longer than the buffer, and reloading *)

Section Chunks.

Lemma read_line_no_LF (room : nat) (l t : list ascii) :
  existsb (Ascii.eqb LF) l = false ->
  (room <= List.length l)%nat ->
  read_line room (l ++ t) = (firstn room l, skipn room l ++ t).
Proof.
  revert l; induction room as [|room IH]; intros l Hl Hlen; [reflexivity|].
  destruct l as [|c l]; [simpl in Hlen; lia|].
  cbn [existsb] in Hl. apply orb_false_iff in Hl as [Hc Hl].
  rewrite <- app_comm_cons, read_line_cons, (Ascii.eqb_sym c LF), Hc.
  rewrite IH by (auto; simpl in Hlen; lia). reflexivity.
Qed.

(** X14: a line of 255 bytes or more is read in pieces: the loop of
    [parse_config] sees its first 255 bytes as one line and goes on
    with the rest of it as if it were the next line. *)
Theorem long_line_is_split (l rest : list ascii) :
  existsb (Ascii.eqb LF) l = false ->
  (255 <= List.length l)%nat ->
  fgets_all 256 (l ++ LF :: rest) =
    cstr (firstn 255 l) :: fgets_all 256 (skipn 255 l ++ LF :: rest).
Proof.
  intros Hl Hlen. rewrite fgets_all_unfold. unfold fgets.
  destruct (l ++ LF :: rest) as [|c s] eqn:E.
  - destruct l; discriminate.
  - rewrite <- E. change (256 - 1)%nat with 255%nat.
    now rewrite read_line_no_LF.
Qed.

Lemma read_line_app_LF (room : nat) (g f2 : list ascii) :
  read_line room (g ++ LF :: f2) =
    (fst (read_line room (g ++ [LF])), snd (read_line room (g ++ [LF])) ++ f2) /\
  (snd (read_line room (g ++ [LF])) = [] \/
   exists g', snd (read_line room (g ++ [LF])) = g' ++ [LF]).
Proof.
  revert g; induction room as [|room IH]; intros g.
  - cbn [read_line fst snd]. split; [now rewrite <- app_assoc|]. right; eauto.
  - destruct g as [|c g].
    + cbn [app]. rewrite !read_line_cons. rewrite Ascii.eqb_refl.
      cbn [fst snd]. auto.
    + rewrite <- !app_comm_cons, !read_line_cons.
      destruct (Ascii.eqb c LF).
      * cbn [fst snd]. split; [now rewrite <- app_assoc|]. right; eauto.
      * destruct (IH g) as [-> H]. cbn [fst snd]. auto.
Qed.

Lemma fgets_all_app_aux (n : nat) :
  forall f1 f2,
    (List.length f1 <= n)%nat ->
    (f1 = [] \/ exists g, f1 = g ++ [LF]) ->
    fgets_all 256 (f1 ++ f2) = fgets_all 256 f1 ++ fgets_all 256 f2.
Proof.
  induction n as [|n IH]; intros f1 f2 Hlen Hend.
  - destruct f1; [reflexivity|simpl in Hlen; lia].
  - destruct Hend as [-> | [g ->]]; [reflexivity|].
    rewrite <- app_assoc. cbn [app].
    rewrite (fgets_all_unfold (g ++ LF :: f2)), (fgets_all_unfold (g ++ [LF])).
    unfold fgets. change (256 - 1)%nat with (S 254).
    destruct (read_line_app_LF (S 254) g f2) as [E Hrest].
    pose proof (read_line_shorter 254 (g ++ [LF])) as Hs.
    destruct (g ++ LF :: f2) as [|c s] eqn:E1; [destruct g; discriminate|].
    destruct (g ++ [LF]) as [|c' s'] eqn:E2; [destruct g; discriminate|].
    rewrite E. destruct (read_line (S 254) (c' :: s')) as [buf rest].
    cbn [fst snd] in *. cbn [app]. f_equal.
    destruct Hs as [Hs|Hs]; [|discriminate].
    apply IH; [|exact Hrest].
    rewrite <- E2 in Hs. rewrite <- E2 in Hlen. lia.
Qed.

Lemma fgets_all_app (g f2 : list ascii) :
  fgets_all 256 ((g ++ [LF]) ++ f2) =
    fgets_all 256 (g ++ [LF]) ++ fgets_all 256 f2.
Proof.
  apply (fgets_all_app_aux (List.length (g ++ [LF]))); eauto.
Qed.

(** X15: parsing is incremental: loading a file that ends in a
    newline and then another one over the result gives what loading
    the two files joined gives. *)
Theorem reload_composes
    (getenv : environment) (fs1 fs2 fs12 : filesystem) (name : cstring)
    (g file2 : list ascii) (cfg cfg1 : Config) :
  fs1 name = Some (g ++ [LF]) ->
  fs2 name = Some file2 ->
  fs12 name = Some ((g ++ [LF]) ++ file2) ->
  parse_config getenv fs1 (Some name) cfg = Some (name, true, cfg1) ->
  parse_config getenv fs2 (Some name) cfg1 = parse_config getenv fs12 (Some name) cfg.
Proof.
  unfold parse_config, deref. cbn [bind].
  intros -> -> ->. rewrite fgets_all_app.
  destruct (config_loop cfg (fgets_all 256 (g ++ [LF]))) as [[b c]|] eqn:E;
    cbn [bind fst snd]; [|discriminate].
  intros [= -> ->]. now rewrite (config_loop_app _ _ _ _ _ E).
Qed.

(** X16: once a [defaults] line has been read, every response
    [handle_request] returns with a defined result ends in exactly one
    newline, whatever the request and the files. *)
Theorem defaults_line_fixes_newline
    (cfg cfg' : Config) (line v : cstring)
    (db : passwd_db) (fs : filesystem) (input r : cstring) :
  strip line = lit "defaults " ++ v ->
  config_line cfg line = Some (Continue cfg') ->
  response db fs cfg' input = Some r ->
  ends_in_one_newline r = true.
Proof.
  intros Hs Hc.
  destruct (defaults_line_one_newline cfg line v Hs) as (c & Hc' & _ & H).
  rewrite Hc in Hc'. injection Hc' as <-.
  now apply response_one_newline.
Qed.

End Chunks.

Lemma long_line_is_split_witness :
  fgets_all 256 ((repeat "x"%char 255 ++ lit "port 22") ++ LF :: [])
  = cstr (firstn 255 (repeat "x"%char 255 ++ lit "port 22"))
    :: fgets_all 256 (skipn 255 (repeat "x"%char 255 ++ lit "port 22") ++ LF :: []).
Proof.
  apply (long_line_is_split (repeat "x"%char 255 ++ lit "port 22") []).
  - vm_compute. reflexivity.
  - apply Nat.leb_le. vm_compute. reflexivity.
Defined.

(** The tail of an overlong line is parsed as a line of its own: here
    it sets the port. *)
Example overlong_defaults_sets_port :
  parse_config Sample.no_env
    (Sample.etc_only (lit "defaults " ++ repeat "x"%char 246 ++ lit "port 22" ++ [LF]))
    (Some etc_pronound_conf) config
  = Some (etc_pronound_conf, true,
          mkConfig false (repeat "x"%char 246 ++ [LF]) (lit ".pronouns") 22 (lit "_pronound")).
Proof. vm_compute. reflexivity. Qed.

Lemma reload_composes_witness :
  parse_config Sample.no_env (Sample.etc_only (lit "port 80" ++ [LF]))
    (Some etc_pronound_conf)
    (mkConfig false (lit "they" ++ [LF]) (lit ".pronouns") 731 (lit "_pronound"))
  = parse_config Sample.no_env
      (Sample.etc_only ((lit "defaults they" ++ [LF]) ++ lit "port 80" ++ [LF]))
      (Some etc_pronound_conf) config.
Proof.
  apply (reload_composes Sample.no_env
           (Sample.etc_only (lit "defaults they" ++ [LF])) _ _
           etc_pronound_conf (lit "defaults they") (lit "port 80" ++ [LF]));
    reflexivity.
Defined.

Lemma defaults_line_fixes_newline_witness :
  ends_in_one_newline (lit "ask me" ++ [LF]) = true.
Proof.
  apply (defaults_line_fixes_newline config
           (mkConfig false (lit "ask me" ++ [LF]) (lit ".pronouns") 731 (lit "_pronound"))
           (lit "  defaults ask me " ++ [LF]) (lit "ask me")
           Sample.db Sample.no_files (lit "alice") (lit "ask me" ++ [LF]));
    reflexivity.
Defined.

(** ** Startup *)

Lemma main_parses_etc_witness :
  parse_config (fun _ => None) Sample.two_confs (Some etc_pronound_conf) config
    = Some (etc_pronound_conf, true,
            mkConfig false (lit "from etc" ++ [LF]) (lit ".pronouns") 731 (lit "_pronound")) /\
  lit "731" = snprintf 6 (fmt_d (port
            (mkConfig false (lit "from etc" ++ [LF]) (lit ".pronouns") 731 (lit "_pronound")))).
Proof.
  apply (main_parses_etc Sample.env_override Sample.two_confs
           [opt_C (lit "/tmp/other.conf")] _ (lit "/tmp/other.conf") false (lit "731")).
  reflexivity.
Defined.

Lemma atoi_fmt_d (p : Z) : 0 <= p < 2 ^ 31 -> atoi (fmt_d p) = p.
Proof.
  intros Hp.
  pose proof (all_digits_fmt_d p ltac:(lia)) as Hd.
  pose proof (fmt_d_nonempty p) as Hne.
  pose proof (digits_val_fmt_d p ltac:(lia)) as Hv.
  destruct (fmt_d p) as [|c s]; [congruence|].
  assert (Hc : is_digit c = true).
  { simpl in Hd. destruct (is_digit c); [reflexivity|discriminate]. }
  destruct (is_digit_plain c Hc) as (Hsp & Hm & Hpl).
  unfold atoi, strtol. cbn [skip_space]. rewrite Hsp, Hm, Hpl, Hv.
  unfold to_int, INT_MOD, LONG_MIN, LONG_MAX.
  rewrite Z.max_r, Z.min_r by lia.
  rewrite Z.mod_small by lia. lia.
Qed.

Lemma digits_val_lower (s : cstring) (acc : Z) :
  all_digits s = true -> 0 <= acc ->
  acc * 10 ^ Z.of_nat (List.length s) <= digits_val acc s.
Proof.
  revert acc; induction s as [|c s IH]; intros acc Hd Hacc.
  - simpl. lia.
  - cbn [all_digits] in Hd. destruct (is_digit c) eqn:Hc; [|discriminate].
    cbn [digits_val List.length]. rewrite Hc.
    pose proof (is_digit_val c Hc) as Hv.
    specialize (IH (acc * 10 + digit_val c) Hd ltac:(lia)).
    rewrite Nat2Z.inj_succ, Z.pow_succ_r by lia.
    assert (0 <= 10 ^ Z.of_nat (List.length s)) by (apply Z.pow_nonneg; lia).
    nia.
Qed.

Lemma to_uint_leading (p : positive) (d' : Decimal.uint) :
  Pos.to_uint p <> Decimal.D0 d'.
Proof.
  pose proof (DecimalPos.Unsigned.to_of (Pos.to_uint p)) as H.
  rewrite DecimalPos.Unsigned.of_to in H. cbn [N.to_uint] in H.
  pose proof (DecimalPos.Unsigned.to_uint_nonzero p) as Hz.
  unfold Decimal.unorm in H.
  pose proof (DecimalFacts.nzhead_nonzero (Pos.to_uint p) d') as Hn.
  destruct (Decimal.nzhead (Pos.to_uint p)); congruence.
Qed.

Lemma fmt_d_length (p : Z) : 0 <= p < 10 ^ 5 -> (List.length (fmt_d p) <= 5)%nat.
Proof.
  intros Hp. destruct p as [|q|q]; [simpl; lia | | lia].
  pose proof (all_digits_fmt_d (Z.pos q) ltac:(lia)) as Hd.
  pose proof (digits_val_fmt_d (Z.pos q) ltac:(lia)) as Hv.
  rewrite fmt_d_pos in *.
  pose proof (to_uint_leading q) as Hl.
  pose proof (DecimalPos.Unsigned.to_uint_nonnil q) as Hn.
  destruct (Pos.to_uint q) as [|d|d|d|d|d|d|d|d|d|d];
    [congruence | exfalso; eapply Hl; reflexivity | ..];
    cbn [NilEmpty.string_of_uint lit list_ascii_of_string] in *;
    cbn [all_digits digits_val] in Hd, Hv;
    (match type of Hv with
     | context [is_digit ?c] => change (is_digit c) with true in Hd, Hv
     end);
    cbn iota in Hd, Hv;
    (match type of Hv with
     | digits_val ?a ?s = _ =>
         let v := eval vm_compute in a in change a with v in Hv
     end);
    (match type of Hv with
     | digits_val ?a ?s = _ =>
         pose proof (digits_val_lower s a Hd ltac:(lia)) as Hlow
     end);
    rewrite Hv in Hlow; cbn [List.length];
    (destruct (Nat.le_gt_cases (List.length (list_ascii_of_string (NilEmpty.string_of_uint d))) 4)
       as [Hle|Hgt]; [lia|]);
    exfalso;
    (assert (H5 : 10 ^ 5 <= 10 ^ Z.of_nat (List.length (list_ascii_of_string (NilEmpty.string_of_uint d))))
       by (apply Z.pow_le_mono_r; lia));
    lia.
Qed.

(** X18: a [port] line that gives a number from 0 to 99999 in decimal
    (every TCP port is one) stores that number, and [main] renders it
    back in full as the service string it binds with. *)
Theorem valid_port_round_trip (cfg : Config) (line : cstring) (p : Z) :
  0 <= p < 10 ^ 5 ->
  strip line = lit "port " ++ fmt_d p ->
  config_line cfg line = Some (Continue (set_port cfg p)) /\
  snprintf 6 (fmt_d (port (set_port cfg p))) = fmt_d p.
Proof.
  intros Hp Hs. split.
  - rewrite (port_line_stored cfg line (fmt_d p) Hs), atoi_fmt_d by lia. reflexivity.
  - cbn [port set_port]. unfold snprintf.
    apply firstn_all2. pose proof (fmt_d_length p ltac:(lia)). lia.
Qed.

Lemma valid_port_round_trip_witness :
  config_line config (lit "port 8731" ++ [LF]) = Some (Continue (set_port config 8731)) /\
  snprintf 6 (fmt_d (port (set_port config 8731))) = fmt_d 8731.
Proof.
  apply (valid_port_round_trip config (lit "port 8731" ++ [LF]) 8731).
  - lia.
  - reflexivity.
Defined.

(** ** Privileges, signals and the accept loop *)

Section DaemonMore.

Import Daemon.

(** X19: [drop_privileges] returns true only with both ids set to
    those of the account and nothing written; when it returns false the
    uid is the one it was and a diagnostic has been written. *)
Theorem drop_privileges_all_or_uid_kept
    (db : passwd_db) (k : kernel) (user : cstring) (c c' : creds)
    (ok : bool) (err : cstring) :
  drop_privileges db k user c = (ok, c', err) ->
  if ok
  then exists pw, getpwnam db user = Some pw /\
                  c' = mkCreds (pw_uid pw) (pw_gid pw) /\ err = []
  else cr_uid c' = cr_uid c /\ err <> [].
Proof.
  unfold drop_privileges. destruct (getpwnam db user) as [pw|].
  - destruct (negb (setgid_r k (pw_gid pw) =? 0)).
    + intros [= <- <- <-]. split; [reflexivity|discriminate].
    + destruct (negb (setuid_r k (pw_uid pw) =? 0)).
      * intros [= <- <- <-]. split; [reflexivity|discriminate].
      * intros [= <- <- <-]. eauto.
  - intros [= <- <- <-]. split; [reflexivity|discriminate].
Qed.

Lemma main_binding_root
    (uid : Z) (getenv : environment) (fs : filesystem) (opts : list option_letter)
    (cfg : Config) (f : cstring) (d : bool) (ps : cstring) :
  Pronound.main uid getenv fs opts = Some (Binding cfg f d ps) ->
  uid = 0 /\ (Pronound.daemonise cfg = true -> d = true).
Proof.
  unfold Pronound.main. destruct (uid =? 0) eqn:E; cbn [negb]; [|discriminate].
  apply Z.eqb_eq in E.
  destruct (parse_config _ _ _ _) as [[[o ok] c]|]; cbn [bind]; [|discriminate].
  destruct ok; cbn [negb]; [|discriminate].
  destruct (getopt_loop opts false _) as [[sd cf]|]; [|discriminate].
  intros [= <- <- <- <-]. split; [exact E|]. now intros ->.
Qed.

Lemma main_bind_serving
    (db : passwd_db) (k : kernel) (c c' : creds) (st : startup) (g : globals) :
  main_bind db k c st = Serving g c' ->
  exists cfg f d ps,
    st = Binding cfg f d ps /\ g = mkGlobals cfg d /\
    c' = snd (fst (drop_privileges db k (daemon_user cfg) c)).
Proof.
  unfold main_bind. destruct st as [code|cfg f d ps]; [discriminate|].
  destruct (if d then daemonise k else Returns); [|discriminate].
  destruct (negb _); [discriminate|].
  destruct (socket_r k <? 0); [discriminate|].
  destruct (setsockopt_r k <? 0); [discriminate|].
  destruct (bind_r k <? 0); [discriminate|].
  destruct (drop_privileges db k (daemon_user cfg) c) as [[ok c1] err] eqn:E.
  destruct (listen_r k <? 0); [discriminate|].
  intros [= <- <-]. exists cfg, f, d, ps. now rewrite E.
Qed.


(** X21: a server in the accept loop is marked as detached whenever
    its configuration asks for it. *)
Theorem serving_daemonised_if_configured
    (uid gid : Z) (getenv : environment) (fs : filesystem)
    (opts : list option_letter) (db : passwd_db) (k : kernel)
    (g : globals) (c : creds) :
  Daemon.main uid gid getenv fs opts db k = Some (Serving g c) ->
  Pronound.daemonise (g_config g) = true ->
  g_daemonised g = true.
Proof.
  unfold Daemon.main.
  destruct (Pronound.main uid getenv fs opts) as [st|] eqn:E; cbn [bind]; [|discriminate].
  intros [= H].
  destruct (main_bind_serving _ _ _ _ _ _ H) as (cfg & f & d & ps & -> & -> & _).
  destruct (main_binding_root _ _ _ _ _ _ _ _ E) as [_ Hd]. exact Hd.
Qed.

(** X22: a signal the process survives keeps that marking in step
    with the configuration, and never takes it back. *)
Theorem handle_signal_keeps_daemonised
    (getenv : environment) (fs : filesystem) (k : kernel) (sig : Z)
    (g g' : globals) :
  handle_signal getenv fs k sig g = Some (Resumed g') ->
  (Pronound.daemonise (g_config g) = true -> g_daemonised g = true) ->
  (Pronound.daemonise (g_config g') = true -> g_daemonised g' = true) /\
  (g_daemonised g = true -> g_daemonised g' = true).
Proof.
  unfold handle_signal.
  destruct ((sig =? SIGINT) || (sig =? SIGTERM)); [discriminate|].
  destruct (sig =? SIGHUP).
  - destruct (parse_config _ _ _ _) as [[[o ok] cfg]|]; cbn [bind]; [|discriminate].
    destruct (Pronound.daemonise cfg && negb (g_daemonised g)) eqn:E.
    + destruct (daemonise k); [|discriminate].
      intros [= <-] _. cbn. auto.
    + intros [= <-] _. cbn. split; [|auto].
      intros Hc. rewrite Hc in E. cbn in E.
      now destruct (g_daemonised g).
  - intros [= <-] H. auto.
Qed.

(** X23: a reload whose file cannot be opened changes nothing. *)
Theorem failed_reload_changes_nothing
    (getenv : environment) (fs : filesystem) (k : kernel) (g : globals) :
  fs etc_pronound_conf = None ->
  (Pronound.daemonise (g_config g) = true -> g_daemonised g = true) ->
  handle_signal getenv fs k SIGHUP g = Some (Resumed g).
Proof.
  intros Hfs Hinv. unfold handle_signal. cbn [Z.eqb SIGHUP SIGINT SIGTERM Pos.eqb orb].
  unfold parse_config, deref. cbn [bind]. rewrite Hfs. cbn [bind].
  destruct g as [cfg d]. cbn [g_config g_daemonised] in *.
  destruct (Pronound.daemonise cfg); [rewrite Hinv by reflexivity|]; reflexivity.
Qed.

(** X24: after a reload of a file that ends with a [defaults] line,
    the very next request for an account without a preference file is
    answered with the new default and a newline. *)
Theorem reload_changes_default
    (getenv : environment) (fs : filesystem) (k : kernel) (g g' : globals)
    (file : list ascii) (pre : list cstring) (line v : cstring) (cfg1 : Config)
    (db : passwd_db) (fs' : filesystem) (input : cstring)
    (uid : Z) (out : cstring) (pw : passwd) :
  fs etc_pronound_conf = Some file ->
  fgets_all 256 file = pre ++ [line] ->
  config_loop (g_config g) pre = Some (true, cfg1) ->
  strip line = lit "defaults " ++ v ->
  handle_signal getenv fs k SIGHUP g = Some (Resumed g') ->
  resolve db input = (uid, false, out) ->
  getpwuid db uid = Some pw ->
  fs' (preference_path (g_config g') pw) = None ->
  response db fs' (g_config g') input = Some (v ++ [LF]).
Proof.
  intros Hfs Hl Hpre Hs Hsig Hr Hpw Hmiss. unfold response.
  rewrite (handle_request_missing db fs' _ input uid out pw Hr Hpw Hmiss).
  cbn [fst]. clear Hr Hpw Hmiss. revert Hsig.
  unfold handle_signal. cbn [Z.eqb SIGHUP SIGINT SIGTERM Pos.eqb orb].
  unfold parse_config, deref. cbn [bind].
  rewrite Hfs, Hl, (config_loop_app _ _ _ _ _ Hpre). cbn [config_loop].
  destruct (defaults_line_one_newline cfg1 line v Hs) as (c & -> & Hc & _).
  cbn [bind fst snd].
  destruct (Pronound.daemonise c && negb (g_daemonised g)).
  - destruct (daemonise k); [|discriminate].
    intros [= <-]. cbn [g_config]. now rewrite Hc.
  - intros [= <-]. cbn [g_config]. now rewrite Hc.
Qed.

Lemma cstr_app_no_NUL (a b : list ascii) :
  existsb (Ascii.eqb NUL) a = false -> cstr (a ++ b) = a ++ cstr b.
Proof.
  induction a as [|c a IH]; [reflexivity|].
  cbn [existsb app cstr]. rewrite (Ascii.eqb_sym NUL c).
  destruct (Ascii.eqb c NUL); cbn [orb]; [discriminate|].
  intros H. now rewrite IH.
Qed.

(** X25: the request the accept loop handles is what was read followed
    by whatever the array held beyond it, up to the first NUL: [read]
    stores no terminator.  It is the stripped request itself when a NUL
    happens to follow the bytes read.  What is written is the response
    of [handle_request] to that request, when it has one. *)
Theorem accept_turn_reads_past_request
    (db : passwd_db) (fs : filesystem) (cfg : Config) (client_sock : Z)
    (data buffer : list ascii) :
  0 <= client_sock ->
  (List.length data <= 255)%nat ->
  existsb (Ascii.eqb NUL) data = false ->
  existsb (Ascii.eqb NUL) (skipn (List.length data) buffer) = true ->
  accept_turn db fs cfg client_sock (Some data) buffer =
    match response db fs cfg
            (strip (data ++ cstr (skipn (List.length data) buffer))) with
    | Some r => Some (Some r)
    | None => None
    end /\
  (nth_error buffer (List.length data) = Some NUL ->
   accept_turn db fs cfg client_sock (Some data) buffer =
     match response db fs cfg (strip data) with
     | Some r => Some (Some r)
     | None => None
     end).
Proof.
  intros Hs Hlen Hd Ht.
  assert (E : accept_turn db fs cfg client_sock (Some data) buffer =
              match response db fs cfg
                      (strip (data ++ cstr (skipn (List.length data) buffer))) with
              | Some r => Some (Some r)
              | None => None
              end).
  { unfold accept_turn, response. replace (client_sock <? 0) with false by lia.
    change (256 - 1)%nat with 255%nat. rewrite firstn_all2 by exact Hlen.
    unfold string_in. rewrite existsb_app, Ht, orb_true_r. cbn [bind].
    rewrite cstr_app_no_NUL by exact Hd.
    now destruct (fst (handle_request db fs cfg _)). }
  split; [exact E|].
  intros Hn. rewrite E.
  destruct (skipn (List.length data) buffer) as [|c t] eqn:Hsk.
  - discriminate.
  - assert (c = NUL) as ->.
    { pose proof (hd_error_skipn (List.length data) buffer) as H.
      rewrite Hsk in H. cbn in H. congruence. }
    cbn [cstr]. rewrite Ascii.eqb_refl. now rewrite app_nil_r.
Qed.

End DaemonMore.

Lemma drop_privileges_all_or_uid_kept_witness :
  exists pw, getpwnam Sample2.with_daemon (lit "_pronound") = Some pw /\
             Daemon.mkCreds 731 731 = Daemon.mkCreds (pw_uid pw) (pw_gid pw) /\
             @nil ascii = [].
Proof.
  apply (drop_privileges_all_or_uid_kept Sample2.with_daemon Sample2.kernel_ok
           (lit "_pronound") (Daemon.mkCreds 0 0) (Daemon.mkCreds 731 731) true []).
  reflexivity.
Defined.


Lemma serving_daemonised_if_configured_witness :
  Daemon.g_daemonised
    (Daemon.mkGlobals
       (mkConfig true (lit "not specified") (lit ".pronouns") 731 (lit "_pronound"))
       true) = true.
Proof.
  apply (serving_daemonised_if_configured 0 0 Sample.no_env
           (Sample.etc_only (lit "daemonise true" ++ [LF])) [] Sample2.with_daemon
           Sample2.kernel_ok
           (Daemon.mkGlobals
              (mkConfig true (lit "not specified") (lit ".pronouns") 731 (lit "_pronound"))
              true)
           (Daemon.mkCreds 731 731));
    reflexivity.
Defined.

Lemma handle_signal_keeps_daemonised_witness :
  (daemonise (mkConfig true (lit "not specified") (lit ".pronouns") 731 (lit "_pronound"))
     = true ->
   Daemon.g_daemonised
     (Daemon.mkGlobals
        (mkConfig true (lit "not specified") (lit ".pronouns") 731 (lit "_pronound"))
        true) = true) /\
  (Daemon.g_daemonised (Daemon.mkGlobals config false) = true ->
   Daemon.g_daemonised
     (Daemon.mkGlobals
        (mkConfig true (lit "not specified") (lit ".pronouns") 731 (lit "_pronound"))
        true) = true).
Proof.
  apply (handle_signal_keeps_daemonised Sample.no_env
           (Sample.etc_only (lit "daemonise true" ++ [LF])) Sample2.kernel_ok
           Daemon.SIGHUP (Daemon.mkGlobals config false)
           (Daemon.mkGlobals
              (mkConfig true (lit "not specified") (lit ".pronouns") 731 (lit "_pronound"))
              true)).
  - reflexivity.
  - discriminate.
Defined.

Lemma failed_reload_changes_nothing_witness :
  Daemon.handle_signal Sample.no_env Sample.no_files Sample2.kernel_ok Daemon.SIGHUP
    (Daemon.mkGlobals config false)
  = Some (Daemon.Resumed (Daemon.mkGlobals config false)).
Proof.
  apply (failed_reload_changes_nothing Sample.no_env Sample.no_files Sample2.kernel_ok
           (Daemon.mkGlobals config false)).
  - reflexivity.
  - discriminate.
Defined.

Lemma reload_changes_default_witness :
  response Sample.db Sample.no_files
    (mkConfig false (lit "ask me" ++ [LF]) (lit ".pronouns") 731 (lit "_pronound"))
    (lit "alice")
  = Some (lit "ask me" ++ [LF]).
Proof.
  apply (reload_changes_default Sample.no_env
           (Sample.etc_only (lit "# new" ++ [LF] ++ lit "defaults ask me" ++ [LF]))
           Sample2.kernel_ok
           (Daemon.mkGlobals config false)
           (Daemon.mkGlobals
              (mkConfig false (lit "ask me" ++ [LF]) (lit ".pronouns") 731 (lit "_pronound"))
              false)
           (lit "# new" ++ [LF] ++ lit "defaults ask me" ++ [LF])
           [lit "# new" ++ [LF]] (lit "defaults ask me" ++ [LF]) (lit "ask me") config
           Sample.db Sample.no_files (lit "alice") 1000 [] Sample.alice);
    reflexivity.
Defined.

Lemma accept_turn_reads_past_request_witness :
  Daemon.accept_turn Sample.db Sample.no_files config 4
    (Some (lit "root" ++ [LF])) Sample2.stale
  = Some (Some (lit "not specified")).
Proof.
  destruct (accept_turn_reads_past_request Sample.db Sample.no_files config 4
              (lit "root" ++ [LF]) Sample2.stale) as [H _].
  - lia.
  - apply Nat.leb_le. reflexivity.
  - reflexivity.
  - vm_compute. reflexivity.
  - rewrite H. vm_compute. reflexivity.
Defined.

(** What an earlier request left in the array becomes part of a shorter
    one that follows: after "alice", the request "bob" is handled as
    "bob", a newline and "e", which names no account. *)
Example stale_bytes_join_request :
  Daemon.accept_turn
    (Sample.db ++ [mkPasswd (lit "bob") 1001 1001 (lit "/home/bob")])
    Sample.no_files config 4 (Some (lit "bob" ++ [LF])) Sample2.stale
  = Some (Some (lit "user not found" ++ [LF])).
Proof. vm_compute. reflexivity. Qed.

(** ** The client, continued *)

Section ClientMore.

Import Pronoun.

Lemma client_exit_codes_witness :
  exists code out err,
    main [lit "pronoun"; lit "alice@localhost"; lit "7310"] Sample.net_ok
      = Exit code out err /\
    ((code = 0 /\ err = []) \/ (code = 1 /\ err <> [])).
Proof.
  apply (client_exit_codes [lit "pronoun"; lit "alice@localhost"; lit "7310"] Sample.net_ok).
  simpl. lia.
Defined.

(** X27: the client returns 0 only after every network call succeeded,
    with nothing on standard error: [getaddrinfo] for the host that
    follows the first [@] of the argument and the port argument or 731,
    [socket], [connect], [send] of the user token and a newline, and
    [recv]; what it prints is what [recv] returned, up to 255 bytes and
    to the first NUL. *)
Theorem client_success_prints_received
    (argv : list cstring) (net : network) (out err : cstring) :
  main argv net = Exit 0 out err ->
  err = [] /\
  (exists a1 user save hostname save',
     nth_error argv 1 = Some a1 /\
     strtok (Some a1) (lit "@") None = Some (Some user, Some save) /\
     strtok None (lit " ") (Some save) = Some (Some hostname, Some save') /\
     getaddrinfo net hostname
       (match nth_error argv 2 with
        | Some p => p
        | None => lit "731"
        end) = true /\
     send net (snprintf 256 (user ++ [LF])) = true) /\
  socket net = true /\ connect net = true /\
  exists data, recv net = Some data /\ out = cstr (firstn 255 data).
Proof.
  destruct argv as [|a0 [|a1 rest]]; [discriminate | discriminate |].
  unfold main.
  replace (List.length (a0 :: a1 :: rest) <? 2)%nat with false
    by (symmetry; apply Nat.ltb_ge; simpl; lia).
  assert (Ha2 : argv_at (a0 :: a1 :: rest) 2 = Some (nth_error (a0 :: a1 :: rest) 2)).
  { unfold argv_at. destruct rest; reflexivity. }
  rewrite Ha2.
  change (argv_at (a0 :: a1 :: rest) 1) with (Some (Some a1)).
  cbn [bind].
  destruct (strtok_defined (Some a1) None (lit "@") a1 eq_refl) as (u & save & Hu).
  rewrite Hu. cbn [bind].
  destruct (strtok_defined None (Some save) (lit " ") save eq_refl) as (h & save' & Hh).
  rewrite Hh. cbn [bind].
  destruct u as [u|]; [|discriminate].
  destruct h as [h|]; [|discriminate].
  destruct (getaddrinfo net h _) eqn:Hg; cbn [negb]; [|discriminate].
  destruct (socket net); cbn [negb]; [|discriminate].
  destruct (connect net); cbn [negb]; [|discriminate].
  destruct (send net _) eqn:Hsend; cbn [negb]; [|discriminate].
  destruct (recv net) as [data|]; [|discriminate].
  intros [= <- <-]. split; [reflexivity|]. split.
  - exists a1, u, save, h, save'. repeat split; assumption.
  - repeat split. eauto.
Qed.

Lemma skip_delim_none (delim s : cstring) :
  existsb (in_delim delim) s = false -> skip_delim delim s = s.
Proof.
  destruct s as [|c s]; [reflexivity|]. cbn [existsb skip_delim].
  intros H. apply orb_false_iff in H as [-> _]. reflexivity.
Qed.

Lemma token_none (delim s : cstring) :
  existsb (in_delim delim) s = false -> token delim s = (s, []).
Proof.
  induction s as [|c s IH]; [reflexivity|]. cbn [existsb token].
  intros H. apply orb_false_iff in H as [-> H]. now rewrite IH.
Qed.

Lemma skip_delim_all (delim s : cstring) :
  forallb (in_delim delim) s = true -> skip_delim delim s = [].
Proof.
  induction s as [|c s IH]; [reflexivity|]. cbn [forallb skip_delim].
  intros H. apply andb_true_iff in H as [-> H]. auto.
Qed.

(** X28: an argument that holds no [@] is taken whole as the user and
    leaves no host: the client writes "Hostname is required" and
    returns 1; an argument that is empty or made of [@] only leaves no
    user either, and the client says so.  No network call comes into
    it. *)
Theorem client_argument_without_host
    (prog a1 : cstring) (rest : list cstring) (net : network) :
  (a1 <> [] -> existsb (in_delim (lit "@")) a1 = false ->
   main (prog :: a1 :: rest) net = Exit 1 [] (lit "Hostname is required" ++ [LF])) /\
  (forallb (in_delim (lit "@")) a1 = true ->
   main (prog :: a1 :: rest) net = Exit 1 [] (lit "Username or UID is required" ++ [LF])).
Proof.
  assert (Ha2 : exists a2, argv_at (prog :: a1 :: rest) 2 = Some a2).
  { unfold argv_at. simpl. destruct rest; simpl; eauto. }
  destruct Ha2 as [a2 Ha2].
  split.
  - intros Hne Hno. unfold main.
    replace (List.length (prog :: a1 :: rest) <? 2)%nat with false
      by (symmetry; apply Nat.ltb_ge; simpl; lia).
    rewrite Ha2. change (argv_at (prog :: a1 :: rest) 1) with (Some (Some a1)).
    cbn [bind]. unfold strtok at 1. cbn [bind].
    rewrite (skip_delim_none _ _ Hno).
    destruct a1 as [|c s]; [congruence|].
    rewrite (token_none _ _ Hno). cbn [bind]. reflexivity.
  - intros Hall. unfold main.
    replace (List.length (prog :: a1 :: rest) <? 2)%nat with false
      by (symmetry; apply Nat.ltb_ge; simpl; lia).
    rewrite Ha2. change (argv_at (prog :: a1 :: rest) 1) with (Some (Some a1)).
    cbn [bind]. unfold strtok at 1. cbn [bind].
    rewrite (skip_delim_all _ _ Hall). cbn [bind]. reflexivity.
Qed.

End ClientMore.

Lemma client_success_prints_received_witness :
  @nil ascii = [] /\
  (exists a1 user save hostname save',
     nth_error [lit "pronoun"; lit "alice@example.org"] 1 = Some a1 /\
     Pronoun.strtok (Some a1) (lit "@") None = Some (Some user, Some save) /\
     Pronoun.strtok None (lit " ") (Some save) = Some (Some hostname, Some save') /\
     Pronoun.getaddrinfo Sample.net_ok hostname
       (match nth_error [lit "pronoun"; lit "alice@example.org"] 2 with
        | Some p => p
        | None => lit "731"
        end) = true /\
     Pronoun.send Sample.net_ok (snprintf 256 (user ++ [LF])) = true) /\
  Pronoun.socket Sample.net_ok = true /\
  Pronoun.connect Sample.net_ok = true /\
  exists data, Pronoun.recv Sample.net_ok = Some data /\
               lit "she/her" ++ [LF] = cstr (firstn 255 data).
Proof.
  apply (client_success_prints_received [lit "pronoun"; lit "alice@example.org"]
           Sample.net_ok (lit "she/her" ++ [LF]) []).
  reflexivity.
Defined.

Lemma client_argument_without_host_witness :
  Pronoun.main [lit "pronoun"; lit "alice"] Sample.net_ok
    = Pronoun.Exit 1 [] (lit "Hostname is required" ++ [LF]) /\
  Pronoun.main [lit "pronoun"; lit "@@"] Sample.net_ok
    = Pronoun.Exit 1 [] (lit "Username or UID is required" ++ [LF]).
Proof.
  split.
  - apply (client_argument_without_host (lit "pronoun") (lit "alice") [] Sample.net_ok);
      [discriminate | reflexivity].
  - apply (client_argument_without_host (lit "pronoun") (lit "@@") [] Sample.net_ok).
    reflexivity.
Defined.
